(** * Route and tracking data fusion of the shipment map: a shallow embedding

    The development follows [src/utils/shipmentData.ts] (coordinate
    resolver, milestone normalizer, waypoint synthesizer, tracking fusion)
    and the [ShipmentCard] component (route stops and progress bar).

    Conventions of the embedding.
    - JavaScript strings are [string]s of ASCII characters; [toUpperCase],
      [toLowerCase] and [trim] are the ASCII restrictions of the JavaScript
      methods, [charCodeAt] is the character code.
    - JavaScript numbers that hold coordinates are exact rationals ([Q]):
      the decimal literals of the tables and of the JSON feeds, and the
      sums and products the code takes of them.  Great-circle distances go
      through [Math.sin], [Math.cos], [Math.sqrt] and [Math.atan2]; they are
      real numbers ([R]) and these functions are their mathematical
      counterparts.  Rounding, NaN and infinities of IEEE doubles are
      outside the model, except for [Infinity] as the initial minimum of
      [findClosestSeaWaypoint].  Where rounding decides what the code does,
      in the waypoint synthesizer, module [Double] gives the same code on
      IEEE doubles.
    - 32-bit integer operators ([<<], [>>], [|= 0]) are written on [Z] with
      the wrap-around spelled out ([toInt32]); [%] is the truncated
      remainder [Z.rem].
    - A date is the instant [parseISO]/[new Date] reads from the ISO string
      ([ValidDate t], milliseconds) or [InvalidDate]; the clock read by
      [new Date()] is an explicit argument [now].
    - The three imported JSON files are arguments of the functions that
      read them. *)

From Stdlib Require Import ZArith QArith Qabs Reals Qreals Lra Lia Bool.
From Stdlib Require Import String Ascii List DecimalString.
From Stdlib Require Floats.PrimFloat.
Import ListNotations.

Open Scope string_scope.
Open Scope Z_scope.

(* ------------------------------------------------------------------ *)
(** ** JavaScript string methods used by the code *)

Module JsString.

Definition upperChar (c : ascii) : ascii :=
  let n := N_of_ascii c in
  if ((97 <=? n) && (n <=? 122))%N then ascii_of_N (n - 32) else c.

Definition lowerChar (c : ascii) : ascii :=
  let n := N_of_ascii c in
  if ((65 <=? n) && (n <=? 90))%N then ascii_of_N (n + 32) else c.

Fixpoint mapChars (f : ascii -> ascii) (s : string) : string :=
  match s with
  | EmptyString => EmptyString
  | String c s' => String (f c) (mapChars f s')
  end.

Definition toUpperCase : string -> string := mapChars upperChar.
Definition toLowerCase : string -> string := mapChars lowerChar.

(** White space of [String.prototype.trim] in the ASCII range:
    TAB, LF, VT, FF, CR and SPACE. *)
Definition isWhiteSpace (c : ascii) : bool :=
  let n := N_of_ascii c in
  (((9 <=? n) && (n <=? 13)) || (n =? 32))%N.

Fixpoint trimStart (s : string) : string :=
  match s with
  | EmptyString => EmptyString
  | String c s' => if isWhiteSpace c then trimStart s' else s
  end.

Fixpoint trimEnd (s : string) : string :=
  match s with
  | EmptyString => EmptyString
  | String c s' =>
      match trimEnd s' with
      | EmptyString => if isWhiteSpace c then EmptyString else String c EmptyString
      | r => String c r
      end
  end.

Definition trim (s : string) : string := trimEnd (trimStart s).

(** [s.includes(sub)] *)
Fixpoint includes (s sub : string) : bool :=
  String.prefix sub s
  || match s with
     | EmptyString => false
     | String _ s' => includes s' sub
     end.

(** [s.split(',')] *)
Fixpoint split_comma (s : string) : list string :=
  match s with
  | EmptyString => [EmptyString]
  | String c s' =>
      if Ascii.eqb c ","%char then EmptyString :: split_comma s'
      else match split_comma s' with
           | h :: t => String c h :: t
           | [] => [String c EmptyString]
           end
  end.

(** [s.split(',')[0]]; the array of a split is never empty. *)
Definition firstSegment (s : string) : string :=
  hd EmptyString (split_comma s).

(** [s.charCodeAt(i)] for each [i] in turn. *)
Fixpoint charCodes (s : string) : list Z :=
  match s with
  | EmptyString => []
  | String c s' => Z.of_N (N_of_ascii c) :: charCodes s'
  end.

(** Truthiness of a string: the empty string is falsy. *)
Definition truthy (s : string) : bool :=
  match s with EmptyString => false | _ => true end.

(** [a || b] on strings. *)
Definition orElse (a b : string) : string := if truthy a then a else b.

(** Decimal rendering of an array index inside a template literal. *)
Definition ofIndex (n : nat) : string :=
  NilZero.string_of_uint (Nat.to_uint n).

End JsString.
Import JsString.

(* ------------------------------------------------------------------ *)
(** ** Coordinate resolver *)

Record LatLng : Type := mkLatLng { lat : Q; lng : Q }.

(** A [[number, number]] tuple: latitude first. *)
Definition Coords : Type := (Q * Q)%type.

Definition PORT_COORDINATES : list (string * LatLng) :=
  [ ("SANTOS, BRAZIL", mkLatLng (-23.9608) (-46.3339));
    ("SANTOS", mkLatLng (-23.9608) (-46.3339));
    ("MUNDRA", mkLatLng 22.8394 69.7197);
    ("MUNDRA, INDIA", mkLatLng 22.8394 69.7197);
    ("NHAVA SHEVA", mkLatLng 18.9480 72.9508);
    ("MUMBAI", mkLatLng 18.9388 72.8354);
    ("MUHAMMAD BIN QASIM (PORT QASIM), PAKISTAN", mkLatLng 24.7854 67.3480);
    ("PORT QASIM", mkLatLng 24.7854 67.3480);
    ("KARACHI", mkLatLng 24.8414 67.0011);
    ("KARACHI, PAKISTAN", mkLatLng 24.8414 67.0011);
    ("JEBEL ALI", mkLatLng 25.0118 55.1121);
    ("DUBAI", mkLatLng 25.2769 55.2962);
    ("DUBAI, UAE", mkLatLng 25.2769 55.2962);
    ("SINGAPORE", mkLatLng 1.2644 103.8224);
    ("SHANGHAI", mkLatLng 31.2304 121.4737);
    ("SHANGHAI, CHINA", mkLatLng 31.2304 121.4737);
    ("NINGBO", mkLatLng 29.8683 121.5440);
    ("NINGBO, CHINA", mkLatLng 29.8683 121.5440);
    ("SHENZHEN", mkLatLng 22.5431 114.0579);
    ("SHENZHEN, CHINA", mkLatLng 22.5431 114.0579);
    ("QINGDAO, CHINA", mkLatLng 36.0667 120.3833);
    ("LOS ANGELES", mkLatLng 33.7405 (-118.2720));
    ("LOS ANGELES, USA", mkLatLng 33.7405 (-118.2720));
    ("LONG BEACH", mkLatLng 33.7553 (-118.2256));
    ("NEW YORK", mkLatLng 40.6635 (-74.0354));
    ("NEW YORK, USA", mkLatLng 40.6635 (-74.0354));
    ("ROTTERDAM", mkLatLng 51.9244 4.4777);
    ("HAMBURG", mkLatLng 53.5395 9.9847);
    ("ANTWERP", mkLatLng 51.2894 4.3053) ]%Q.

Definition LOCATION_COORDINATES : list (string * Coords) :=
  [ ("QINGDAO, CHINA", (36.0667, 120.3833));
    ("SHANGHAI, CHINA", (31.2304, 121.4737));
    ("NINGBO, CHINA", (29.8683, 121.5440));
    ("GUANGZHOU, CHINA", (23.1291, 113.2644));
    ("SHENZHEN, CHINA", (22.5431, 114.0579));
    ("KARACHI, PAKISTAN", (24.8607, 67.0011));
    ("PORT QASIM, PAKISTAN", (24.7667, 67.3333));
    ("MUHAMMAD BIN QASIM (PORT QASIM), PAKISTAN", (24.7667, 67.3333));
    ("KHALIFA, ABU DHABI", (24.4539, 54.3773));
    ("DUBAI, UAE", (25.2048, 55.2708));
    ("LAEM CHABANG, THAILAND", (13.0833, 100.8833));
    ("BANGKOK, THAILAND", (13.7563, 100.5018));
    ("BUSAN, SOUTH KOREA", (35.1796, 129.0756));
    ("SEOUL, SOUTH KOREA", (37.5665, 126.9780));
    ("NORFLOK, USA", (36.8468, -76.2852));
    ("NORFOLK, USA", (36.8468, -76.2852));
    ("NEW YORK, USA", (40.7128, -74.0060));
    ("LOS ANGELES, USA", (34.0522, -118.2437));
    ("SANTOS, BRAZIL", (-23.9608, -46.3331));
    ("SAO PAULO, BRAZIL", (-23.5505, -46.6333));
    ("MUNDRA", (22.8397, 69.7214));
    ("MUMBAI, INDIA", (19.0760, 72.8777));
    ("MESAIEED, QATAR", (24.9924, 51.5472));
    ("DOHA, QATAR", (25.2854, 51.5310)) ]%Q.

(** [table[key]] on an object literal whose keys are all distinct. *)
Fixpoint lookup {A : Type} (key : string) (table : list (string * A)) : option A :=
  match table with
  | [] => None
  | (k, v) :: rest => if String.eqb k key then Some v else lookup key rest
  end.

(** [ToInt32]: the value modulo 2^32, read as a signed 32-bit integer. *)
Definition toInt32 (z : Z) : Z := (z + 2 ^ 31) mod 2 ^ 32 - 2 ^ 31.

(** One turn of the hashing loop:
    [hash = (hash << 5) - hash + location.charCodeAt(i); hash |= 0]. *)
Definition hashStep (hash code : Z) : Z :=
  toInt32 (toInt32 (Z.shiftl (toInt32 hash) 5) - hash + code).

Definition locationHash (location : string) : Z :=
  fold_left hashStep (charCodes location) 0.

(** [((hash % 12000) / 100) - 60] *)
Definition hashLat (hash : Z) : Q :=
  (inject_Z (Z.rem hash 12000) / 100 - 60)%Q.

(** [(((hash >> 3) % 34000) / 100) - 170] *)
Definition hashLng (hash : Z) : Q :=
  (inject_Z (Z.rem (Z.shiftr (toInt32 hash) 3) 34000) / 100 - 170)%Q.

(** The test of the partial match over [PORT_COORDINATES]. *)
Definition portPartialMatch (normalized key : string) : bool :=
  let keyNormalized := toUpperCase key in
  includes normalized (firstSegment keyNormalized)
  || includes keyNormalized (firstSegment normalized).

(** The test of the partial match over [LOCATION_COORDINATES]. *)
Definition locationPartialMatch (normalized key : string) : bool :=
  includes normalized (firstSegment key)
  || includes key (firstSegment normalized).

(** [getLocationCoordinates]; the declared result type is
    [[number, number] | null]. *)
Definition getLocationCoordinates (location : string) : option Coords :=
  let normalized := trim (toUpperCase location) in
  match lookup normalized PORT_COORDINATES with
  | Some p => Some (lat p, lng p)
  | None =>
    match find (fun kv => portPartialMatch normalized (fst kv)) PORT_COORDINATES with
    | Some (_, coords) => Some (lat coords, lng coords)
    | None =>
      match lookup normalized LOCATION_COORDINATES with
      | Some c => Some c
      | None =>
        match find (fun kv => locationPartialMatch normalized (fst kv))
                   LOCATION_COORDINATES with
        | Some (_, coords) => Some coords
        | None =>
            let hash := locationHash location in
            Some (hashLat hash, hashLng hash)
        end
      end
    end
  end.

(* ------------------------------------------------------------------ *)
(** ** Milestone normalizer *)

(** The value of a [Date]: an instant in milliseconds, or the invalid date
    that [parseISO] returns for a malformed string. *)
Inductive JsDate : Type :=
  | ValidDate (t : Z)
  | InvalidDate.

(** [date <= now] on two [Date]s; a comparison with the invalid date
    (time value NaN) is false. *)
Definition dateLe (date : JsDate) (now : Z) : bool :=
  match date with
  | ValidDate t => t <=? now
  | InvalidDate => false
  end.

Inductive MilestoneStatus : Type := completed | current | upcoming.

Definition MilestoneStatus_eqb (a b : MilestoneStatus) : bool :=
  match a, b with
  | completed, completed | current, current | upcoming, upcoming => true
  | _, _ => false
  end.

(** A milestone of [shipmentsList.json]. [start_date] is [None] for [null]
    and otherwise what [parseISO] reads from the string. *)
Record JsonMilestone : Type := mkJsonMilestone {
  milestone_type_display : string;
  milestone_type : Z;
  start_date : option JsDate;
  json_location : option string
}.

Record Milestone : Type := mkMilestone {
  m_id : string;
  m_name : string;
  m_date : JsDate;
  m_location : string;
  m_status : MilestoneStatus
}.

(** [l.filter((m, idx) => f m idx)], with [i] the index of the head. *)
Fixpoint filterIdx {A : Type} (f : A -> nat -> bool) (i : nat) (l : list A) : list A :=
  match l with
  | [] => []
  | x :: xs => if f x i then x :: filterIdx f (S i) xs else filterIdx f (S i) xs
  end.

(** [m.start_date !== null && parseISO(m.start_date!) <= now] *)
Definition datedBy (now : Z) (m : JsonMilestone) : bool :=
  match start_date m with
  | Some d => dateLe d now
  | None => false
  end.

(** The [completedCount] of [transformMilestone]. *)
Definition completedCount (now : Z) (index : nat) (allMilestones : list JsonMilestone) : nat :=
  List.length
    (filterIdx (fun m idx => (idx <? index)%nat && datedBy now m) 0 allMilestones).

Definition transformMilestone (now : Z) (jsonMilestone : JsonMilestone) (index : nat)
    (allMilestones : list JsonMilestone) (origin destination : string) : Milestone :=
  let date :=
    match start_date jsonMilestone with
    | Some d => d
    | None => ValidDate now
    end in
  let location :=
    if (milestone_type jsonMilestone =? 0) || (milestone_type jsonMilestone =? 1)
    then origin
    else if (milestone_type jsonMilestone =? 2) || (milestone_type jsonMilestone =? 3)
    then destination
    else match json_location jsonMilestone with
         | Some l => orElse l "In Transit"
         | None => "In Transit"
         end in
  let status :=
    match start_date jsonMilestone with
    | Some _ =>
        if dateLe date now then completed
        else if (completedCount now index allMilestones =? index)%nat
             then current else upcoming
    | None =>
        if (completedCount now index allMilestones =? index)%nat
        then current else upcoming
    end in
  {| m_id := "milestone-" ++ ofIndex index;
     m_name := milestone_type_display jsonMilestone;
     m_date := date;
     m_location := location;
     m_status := status |}.

(** [l.map((m, idx, all) => f m idx all)], with [i] the index of the head. *)
Fixpoint mapIdx {A B : Type} (f : A -> nat -> B) (i : nat) (l : list A) : list B :=
  match l with
  | [] => []
  | x :: xs => f x i :: mapIdx f (S i) xs
  end.

Inductive ShipmentStatus : Type := delivered | in_transit | pending | closed.

(** The fields of a record of [shipmentsList.json] that the route model
    reads. *)
Record JsonShipment : Type := mkJsonShipment {
  js_id : string;
  js_shipment_order_number : string;
  js_origin : string;
  js_destination : string;
  js_shipment_milestones : list JsonMilestone;
  js_status : string
}.

Record Shipment : Type := mkShipment {
  id : string;
  orderNumber : string;
  status : ShipmentStatus;
  origin : string;
  destination : string;
  milestones : list Milestone
}.

(** [statusMap[s.toLowerCase()] || 'pending'], on the own keys of
    [statusMap]; names inherited from [Object.prototype] are not modelled. *)
Definition normalizeStatus (s : string) : ShipmentStatus :=
  let l := toLowerCase s in
  if String.eqb l "delivered" then delivered
  else if String.eqb l "in_transit" then in_transit
  else if String.eqb l "pending" then pending
  else if String.eqb l "closed" then closed
  else pending.

(** The milestone list built by [transformJsonShipment]. *)
Definition transformMilestones (now : Z) (jsonShipment : JsonShipment) : list Milestone :=
  let all := js_shipment_milestones jsonShipment in
  mapIdx (fun m idx =>
            transformMilestone now m idx all
              (orElse (js_origin jsonShipment) "Unknown")
              (orElse (js_destination jsonShipment) "Unknown"))
         0 all.

Definition transformJsonShipment (now : Z) (jsonShipment : JsonShipment) : Shipment :=
  {| id := js_id jsonShipment;
     orderNumber := js_shipment_order_number jsonShipment;
     status := normalizeStatus (js_status jsonShipment);
     origin := js_origin jsonShipment;
     destination := js_destination jsonShipment;
     milestones := transformMilestones now jsonShipment |}.

(* ------------------------------------------------------------------ *)
(** ** Route stops and progress of [ShipmentCard] *)

Record RouteStop : Type := mkRouteStop {
  rs_location : string;
  rs_date : option JsDate;
  rs_status : MilestoneStatus;
  rs_milestoneName : string
}.

(** The predicate of the filter that keeps the core milestones. *)
Definition isCoreMilestone (m : Milestone) : bool :=
  let name := toLowerCase (m_name m) in
  includes name "empty" || includes name "departure"
  || includes name "arrival" || includes name "delivery".

Definition getOrder (name : string) : Z :=
  let n := toLowerCase name in
  if includes n "empty" then 0
  else if includes n "departure" then 1
  else if includes n "arrival" then 2
  else if includes n "delivery" then 3
  else 99.

(** [Array.prototype.sort] with a comparator, as a stable insertion sort:
    an element stays before the ones that follow it unless the comparator
    is positive. *)
Section Sort.

Context {A : Type} (compare : A -> A -> Z).

Fixpoint insertSorted (x : A) (l : list A) : list A :=
  match l with
  | [] => [x]
  | y :: ys => if compare x y <=? 0 then x :: y :: ys else y :: insertSorted x ys
  end.

Definition sortBy (l : list A) : list A := fold_right insertSorted [] l.

End Sort.

Definition milestoneNames : list string :=
  [ "Empty to shipper"; "Departure from first POL";
    "Arrival at final POD"; "Delivery to consignee" ].

(** The stop pushed by one turn of the [while] loop, at [missingIndex]. *)
Definition placeholderStop (shipment : Shipment) (missingIndex : nat) : RouteStop :=
  {| rs_location := if (missingIndex <? 2)%nat then origin shipment else destination shipment;
     rs_date := None;
     rs_status := upcoming;
     rs_milestoneName :=
       match nth_error milestoneNames missingIndex with
       | Some n => orElse n "Unknown"
       | None => "Unknown"
       end |}.

(** [while (stops.length < 4) stops.push(...)]; [fuel] bounds the number of
    turns. *)
Fixpoint padStops (fuel : nat) (shipment : Shipment) (stops : list RouteStop) : list RouteStop :=
  if (List.length stops <? 4)%nat then
    match fuel with
    | O => stops
    | S fuel' => padStops fuel' shipment (stops ++ [placeholderStop shipment (List.length stops)])
    end
  else stops.

Definition coreMilestones (shipment : Shipment) : list Milestone :=
  sortBy (fun a b => getOrder (m_name a) - getOrder (m_name b))
         (filter isCoreMilestone (milestones shipment)).

Definition stopOfMilestone (milestone : Milestone) : RouteStop :=
  {| rs_location := m_location milestone;
     rs_date := Some (m_date milestone);
     rs_status := m_status milestone;
     rs_milestoneName := m_name milestone |}.

(** [routeStops]; four turns of the loop are enough to leave it. *)
Definition routeStops (shipment : Shipment) : list RouteStop :=
  let stops := map stopOfMilestone (coreMilestones shipment) in
  firstn 4 (padStops 4 shipment stops).

(** [l.findIndex(p)]: the first index whose element satisfies [p], or -1. *)
Fixpoint findIndexFrom {A : Type} (p : A -> bool) (i : Z) (l : list A) : Z :=
  match l with
  | [] => -1
  | x :: xs => if p x then i else findIndexFrom p (i + 1) xs
  end.

Definition findIndex {A : Type} (p : A -> bool) (l : list A) : Z := findIndexFrom p 0 l.

Definition completedStops (stops : list RouteStop) : Z :=
  Z.of_nat (List.length (filter (fun s => MilestoneStatus_eqb (rs_status s) completed) stops)).

Definition currentStopIndex (stops : list RouteStop) : Z :=
  findIndex (fun s => MilestoneStatus_eqb (rs_status s) current) stops.

Definition lastReachedIndex (stops : list RouteStop) : Z :=
  if currentStopIndex stops >=? 0 then currentStopIndex stops
  else completedStops stops - 1.

(** [progress]: the width of the progress bar, in percent. *)
Definition progress (stops : list RouteStop) : Q :=
  if (Z.of_nat (List.length stops) >? 0) && (lastReachedIndex stops >=? 0)
  then (inject_Z (lastReachedIndex stops + 1) / inject_Z (Z.of_nat (List.length stops)) * 100)%Q
  else 0%Q.

(* ------------------------------------------------------------------ *)
(** ** Great-circle distance and the waypoint synthesizer *)

(** [Math.atan2(y, x)]: the angle of the point [(x, y)], in (-PI, PI]. *)
Definition atan2 (y x : R) : R :=
  if Rlt_dec 0 x then atan (y / x)
  else if Rlt_dec x 0 then
         if Rle_dec 0 y then atan (y / x) + PI else atan (y / x) - PI
  else if Rlt_dec 0 y then PI / 2
  else if Rlt_dec y 0 then - (PI / 2)
  else 0%R.

(** [calculateDistance]: the haversine formula, Earth radius 6371 km, over
    the reals (no rounding, no NaN). *)
Definition calculateDistance (lat1 lon1 lat2 lon2 : Q) : R :=
  let R_ := 6371%R in
  let dLat := (Q2R (lat2 - lat1) * PI / 180)%R in
  let dLon := (Q2R (lon2 - lon1) * PI / 180)%R in
  let a :=
    (sin (dLat / 2) * sin (dLat / 2) +
     cos (Q2R lat1 * PI / 180) * cos (Q2R lat2 * PI / 180) *
     sin (dLon / 2) * sin (dLon / 2))%R in
  let c := (2 * atan2 (sqrt a) (sqrt (1 - a)))%R in
  (R_ * c)%R.

(** The distance that [calculateSeaWaypoints] computes for itself, over the
    reals.  In doubles the term [a] can round above 1 at antipodal points;
    [Double.seaDistance] is the same computation on doubles. *)
Definition seaDistance (point1 point2 : Coords) : R :=
  let lat1 := (Q2R (fst point1) * PI / 180)%R in
  let lat2 := (Q2R (fst point2) * PI / 180)%R in
  let dLng := (Q2R (snd point2 - snd point1) * PI / 180)%R in
  let a := (sin ((lat2 - lat1) / 2) ^ 2 +
            cos lat1 * cos lat2 * sin (dLng / 2) ^ 2)%R in
  let c := (2 * atan2 (sqrt a) (sqrt (1 - a)))%R in
  (6371 * c)%R.

Definition calculateSeaWaypoints (point1 point2 : Coords) : list Coords :=
  let distance := seaDistance point1 point2 in
  if Rgt_dec distance 5000 then
    let waypoint1 := (fst point1 + (fst point2 - fst point1) * 0.33,
                      snd point1 + (snd point2 - snd point1) * 0.33)%Q in
    let waypoint2 := (fst point1 + (fst point2 - fst point1) * 0.67,
                      snd point1 + (snd point2 - snd point1) * 0.67)%Q in
    [ (fst waypoint1 * 0.85, snd waypoint1)%Q;
      (fst waypoint2 * 0.85, snd waypoint2)%Q ]
  else if Rgt_dec distance 2000 then
    let waypoint := (fst point1 + (fst point2 - fst point1) * 0.5,
                     snd point1 + (snd point2 - snd point1) * 0.5)%Q in
    [ (fst waypoint * 0.9, snd waypoint)%Q ]
  else [].

(* ------------------------------------------------------------------ *)
(** ** The waypoint synthesizer on IEEE doubles *)

Module Double.

Import PrimFloat.
Local Open Scope float_scope.

(** A decimal literal denotes the nearest double, as it does in
    JavaScript. *)
Local Set Warnings "-inexact-float".

(** What the distance takes from the engine: [Math.sin], [Math.cos],
    [Math.atan2] and the operator [**].  ECMAScript leaves their results
    implementation-approximated, so they are arguments of the model; the
    other operations ([+], [-], [*], [/], [Math.sqrt], [>]) are those of
    IEEE 754 binary64. *)
Record MathObject : Type := mkMathObject {
  Math_sin : float -> float;
  Math_cos : float -> float;
  Math_atan2 : float -> float -> float;
  Math_pow : float -> float -> float
}.

(** [Math.PI] *)
Definition Math_PI : float := 0x1.921fb54442d18p+1.

(** A [[number, number]] tuple of doubles: latitude first. *)
Definition Point : Type := (float * float)%type.

(** The constant [a] of [calculateSeaWaypoints]. *)
Definition haversineTerm (M : MathObject) (point1 point2 : Point) : float :=
  let lat1 := fst point1 * Math_PI / 180 in
  let lat2 := fst point2 * Math_PI / 180 in
  let dLng := (snd point2 - snd point1) * Math_PI / 180 in
  Math_pow M (Math_sin M ((lat2 - lat1) / 2)) 2
  + Math_cos M lat1 * Math_cos M lat2 * Math_pow M (Math_sin M (dLng / 2)) 2.

(** The constant [distance] of [calculateSeaWaypoints]. *)
Definition seaDistance (M : MathObject) (point1 point2 : Point) : float :=
  let a := haversineTerm M point1 point2 in
  let c := 2 * Math_atan2 M (sqrt a) (sqrt (1 - a)) in
  6371 * c.

(** [calculateSeaWaypoints] on doubles; [distance > 5000] is false when
    [distance] is NaN. *)
Definition calculateSeaWaypoints (M : MathObject) (point1 point2 : Point) : list Point :=
  let distance := seaDistance M point1 point2 in
  if 5000 <? distance then
    let waypoint1 := (fst point1 + (fst point2 - fst point1) * 0.33,
                      snd point1 + (snd point2 - snd point1) * 0.33) in
    let waypoint2 := (fst point1 + (fst point2 - fst point1) * 0.67,
                      snd point1 + (snd point2 - snd point1) * 0.67) in
    [ (fst waypoint1 * 0.85, snd waypoint1);
      (fst waypoint2 * 0.85, snd waypoint2) ]
  else if 2000 <? distance then
    let waypoint := (fst point1 + (fst point2 - fst point1) * 0.5,
                     snd point1 + (snd point2 - snd point1) * 0.5) in
    [ (fst waypoint * 0.9, snd waypoint) ]
  else [].

(** An engine tabulated at the arguments that the pair (8, 0), (-8, 180)
    needs: the sine of -8 degrees and of 90 degrees, the cosine of 8 and of
    -8 degrees, squares by multiplication, and an [atan2] that returns NaN
    on a NaN argument. *)
Definition engineAt8 : MathObject :=
  {| Math_sin := fun x =>
       if x =? -0x1.1df46a2529d39p-3 then -0x1.1d06c968d9e19p-3 else 1;
     Math_cos := fun _ => 0x1.fb046a930947ap-1;
     Math_atan2 := fun y x => if is_nan x || is_nan y then nan else Math_PI / 2;
     Math_pow := fun x _ => x * x |}.

(** An engine tabulated at the arguments that the pair (10, 20), (70, 20)
    needs: the sine of 30 degrees and of 0, the cosine of 10 and of 70
    degrees, and the arc tangent of the two square roots, 30 degrees. *)
Definition engineAt10 : MathObject :=
  {| Math_sin := fun x => if x =? 0 then 0 else 0x1.fffffffffffffp-2;
     Math_cos := fun x =>
       if x =? 0x1.657184ae74487p-3 then 0x1.f838b8c811c17p-1
       else 0x1.5e3a8748a0bf7p-2;
     Math_atan2 := fun _ _ => 0x1.0c152382d7365p-1;
     Math_pow := fun x _ => x * x |}.

End Double.

(* ------------------------------------------------------------------ *)
(** ** Tracking feed *)

Record Coordinates : Type := mkCoordinates { latitude : Q; longitude : Q }.

Record PortInfo : Type := mkPortInfo {
  port_name : string;
  port_code : string;
  coordinates : Coordinates
}.

Record TransshipmentPort : Type := mkTransshipmentPort {
  ts_port_name : string;
  ts_port_code : string;
  ts_port_city : string;
  ts_port_country : string;
  ts_coordinates : Coordinates;
  ts_arrival_date : string;
  ts_departure_date : string;
  ts_vessel_at_transshipment : string;
  ts_vessel_imo : string
}.

Record RouteInfo : Type := mkRouteInfo {
  ri_origin : PortInfo;
  ri_destination : PortInfo;
  transshipment_ports : list TransshipmentPort
}.

Record RouteCoordinates : Type := mkRouteCoordinates {
  completed_route : list Coordinates;
  remaining_route : list Coordinates
}.

Record CurrentPosition : Type := mkCurrentPosition {
  cp_latitude : Q;
  cp_longitude : Q;
  cp_location_name : string;
  cp_timestamp : string;
  cp_vessel_name : option string;
  cp_vessel_imo : option string;
  cp_status : string
}.

Record ShipmentTrackingData : Type := mkShipmentTrackingData {
  shipment_order_number : string;
  shipment_id : string;
  shipment_status : string;
  route_info : RouteInfo;
  route_coordinates : RouteCoordinates;
  current_position : CurrentPosition
}.

(** [getShipmentTrackingData]: the first record of [shipmentTracking.json]
    whose id or order number is the key. *)
Definition getShipmentTrackingData (shipments : list ShipmentTrackingData)
    (shipmentIdOrOrderNumber : string) : option ShipmentTrackingData :=
  find (fun s => String.eqb (shipment_id s) shipmentIdOrOrderNumber
                 || String.eqb (shipment_order_number s) shipmentIdOrOrderNumber)
       shipments.

(** A distance or [Infinity]. *)
Inductive Dist : Type :=
  | Finite (d : R)
  | Infinity.

(** [distance < minDistance] *)
Definition distLt (distance : R) (minDistance : Dist) : bool :=
  match minDistance with
  | Infinity => true
  | Finite m => if Rlt_dec distance m then true else false
  end.

(** One turn of the loop of [findClosestSeaWaypoint] over the state
    [(minDistance, closestPoint)]. *)
Definition closestStep (targetLat targetLon : Q) (st : Dist * LatLng) (point : LatLng)
    : Dist * LatLng :=
  let distance := calculateDistance targetLat targetLon (lat point) (lng point) in
  if distLt distance (fst st) then (Finite distance, point) else st.

(** The haversine distance of a route point to the target. *)
Definition distanceTo (targetLat targetLon : Q) (p : LatLng) : R :=
  calculateDistance targetLat targetLon (lat p) (lng p).

Definition findClosestSeaWaypoint (targetLat targetLon : Q) (routePoints : list LatLng)
    : option LatLng :=
  match routePoints with
  | [] => None
  | first :: _ =>
      Some (snd (fold_left (closestStep targetLat targetLon) routePoints (Infinity, first)))
  end.

Record MapPosition : Type := mkMapPosition {
  mp_lat : Q;
  mp_lng : Q;
  vesselName : option string;
  vesselImo : option string;
  mp_status : string;
  locationName : string;
  timestamp : string
}.

Record MapPort : Type := mkMapPort {
  p_lat : Q; p_lng : Q; p_name : string; p_code : string
}.

Record MapTransshipment : Type := mkMapTransshipment {
  t_lat : Q; t_lng : Q; t_name : string; t_code : string;
  t_city : string; t_country : string;
  t_arrivalDate : string; t_departureDate : string;
  t_vesselName : string; t_vesselImo : string
}.

Record MapPorts : Type := mkMapPorts {
  ports_origin : MapPort;
  ports_destination : MapPort;
  ports_transshipment : list MapTransshipment
}.

Record TrackingForMap : Type := mkTrackingForMap {
  completedRoute : list LatLng;
  remainingRoute : list LatLng;
  currentPosition : MapPosition;
  ports : MapPorts
}.

Definition toLatLng (p : Coordinates) : LatLng := mkLatLng (latitude p) (longitude p).

(** [['delivered', 'closed'].includes(s.toLowerCase())] *)
Definition isDeliveredOrClosed (s : string) : bool :=
  let l := toLowerCase s in
  String.eqb "delivered" l || String.eqb "closed" l.

(** The vessel marker position chosen by [getShipmentTrackingForMap]. *)
Definition vesselPosition (shipment_status : string) (completedRoute remainingRoute : list LatLng)
    (currentLat currentLng : Q) : LatLng :=
  let raw := mkLatLng currentLat currentLng in
  let isAtOrigin := (List.length completedRoute =? 0)%nat in
  let isAtDestination :=
    (List.length remainingRoute =? 0)%nat || isDeliveredOrClosed shipment_status in
  if isAtOrigin && (0 <? List.length remainingRoute)%nat then
    nth 0 remainingRoute raw
  else if isAtDestination && (0 <? List.length completedRoute)%nat then
    nth (List.length completedRoute - 1) completedRoute raw
  else if (0 <? List.length remainingRoute)%nat then
    match findClosestSeaWaypoint currentLat currentLng remainingRoute with
    | Some closestWaypoint => closestWaypoint
    | None => raw
    end
  else if (0 <? List.length completedRoute)%nat then
    match findClosestSeaWaypoint currentLat currentLng completedRoute with
    | Some closestWaypoint => closestWaypoint
    | None => raw
    end
  else raw.

Definition shipmentKey (shipment : Shipment) : string :=
  orElse (id shipment) (orderNumber shipment).

Definition getShipmentTrackingForMap (shipments : list ShipmentTrackingData)
    (shipment : Shipment) : option TrackingForMap :=
  match getShipmentTrackingData shipments (shipmentKey shipment) with
  | None => None
  | Some trackingData =>
      let completedRoute := map toLatLng (completed_route (route_coordinates trackingData)) in
      let remainingRoute := map toLatLng (remaining_route (route_coordinates trackingData)) in
      let cp := current_position trackingData in
      let vessel :=
        vesselPosition (shipment_status trackingData) completedRoute remainingRoute
                       (cp_latitude cp) (cp_longitude cp) in
      let portOf (p : PortInfo) :=
        {| p_lat := latitude (coordinates p); p_lng := longitude (coordinates p);
           p_name := port_name p; p_code := port_code p |} in
      Some {|
        completedRoute := completedRoute;
        remainingRoute := remainingRoute;
        currentPosition :=
          {| mp_lat := lat vessel; mp_lng := lng vessel;
             vesselName := cp_vessel_name cp; vesselImo := cp_vessel_imo cp;
             mp_status := cp_status cp; locationName := cp_location_name cp;
             timestamp := cp_timestamp cp |};
        ports :=
          {| ports_origin := portOf (ri_origin (route_info trackingData));
             ports_destination := portOf (ri_destination (route_info trackingData));
             ports_transshipment :=
               map (fun port =>
                      {| t_lat := latitude (ts_coordinates port);
                         t_lng := longitude (ts_coordinates port);
                         t_name := ts_port_name port; t_code := ts_port_code port;
                         t_city := ts_port_city port; t_country := ts_port_country port;
                         t_arrivalDate := ts_arrival_date port;
                         t_departureDate := ts_departure_date port;
                         t_vesselName := ts_vessel_at_transshipment port;
                         t_vesselImo := ts_vessel_imo port |})
                   (transshipment_ports (route_info trackingData)) |}
      |}
  end.

(* ------------------------------------------------------------------ *)
(** ** Route fusion: tracking feed, details feed, calculated route *)

Record RoutePoint : Type := mkRoutePoint {
  coords : Coords;
  milestone : option Milestone;
  index : Z;
  location : option string
}.

(** Tier 1: the points of [completed_route], then those of
    [remaining_route], numbered by the shared counter [index++]. *)
Definition trackingRoutePoints (rc : RouteCoordinates) : list RoutePoint :=
  mapIdx (fun point i =>
            {| coords := (latitude point, longitude point); milestone := None;
               index := Z.of_nat i; location := Some "Completed Route" |})
         0 (completed_route rc)
  ++ mapIdx (fun point i =>
               {| coords := (latitude point, longitude point); milestone := None;
                  index := Z.of_nat i; location := Some "Remaining Route" |})
            (List.length (completed_route rc)) (remaining_route rc).

(** A milestone of [shipmentDetails.json]: [d_location] is [None] for
    [null] or a missing field, [d_latitude]/[d_longitude] are [None] unless
    the field holds a number. *)
Record DetailsMilestone : Type := mkDetailsMilestone {
  d_location : option string;
  d_start_date : option JsDate;
  d_latitude : option Q;
  d_longitude : option Q
}.

Record ShipmentDetails : Type := mkShipmentDetails {
  details_id : string;
  details_milestones : list DetailsMilestone
}.

(** The comparator of the sort by [start_date]; a NaN difference counts
    as 0.  It is not a consistent comparator on milestones without date:
    the order in which [sortBy] leaves those is one an engine may differ
    from. *)
Definition compareStartDate (a b : DetailsMilestone) : Z :=
  match d_start_date a with
  | None => 1
  | Some da =>
      match d_start_date b with
      | None => -1
      | Some db =>
          match da, db with
          | ValidDate ta, ValidDate tb => ta - tb
          | _, _ => 0
          end
      end
  end.

Definition hasLocation (m : DetailsMilestone) : bool :=
  match d_location m with Some _ => true | None => false end.

(** The first [forEach]: one port point per milestone that gets
    coordinates. *)
Fixpoint portPointsFrom (i : nat) (ms : list DetailsMilestone) : list RoutePoint :=
  match ms with
  | [] => []
  | m :: rest =>
      let loc := match d_location m with Some l => l | None => "" end in
      let c :=
        match d_latitude m, d_longitude m with
        | Some la, Some lo => Some (la, lo)
        | _, _ => getLocationCoordinates loc
        end in
      match c with
      | Some c' =>
          {| coords := c'; milestone := None; index := Z.of_nat i;
             location := Some (orElse loc "Unknown") |} :: portPointsFrom (S i) rest
      | None => portPointsFrom (S i) rest
      end
  end.

(** The second [forEach]: each port point followed by the sea waypoints
    towards the next one. *)
Fixpoint withSeaWaypoints (i : nat) (portPoints : list RoutePoint) : list RoutePoint :=
  match portPoints with
  | [] => []
  | portPoint :: rest =>
      portPoint ::
      match rest with
      | [] => []
      | nextPort :: _ =>
          mapIdx (fun waypoint waypointIndex =>
                    {| coords := waypoint; milestone := None;
                       index := Z.of_nat i * 100 + Z.of_nat waypointIndex + 1;
                       location := Some "Sea Route" |})
                 0 (calculateSeaWaypoints (coords portPoint) (coords nextPort))
      end ++ withSeaWaypoints (S i) rest
  end.

(** Tier 2. [None] stands for a details file on which the body throws: the
    handler returns the route as it is then, empty. *)
Definition getShipmentRouteCoordinatesFromDetails (detailsData : option ShipmentDetails)
    (shipmentId : string) : list RoutePoint :=
  match detailsData with
  | None => []
  | Some d =>
      if negb (String.eqb (details_id d) shipmentId) then []
      else
        let milestonesWithLocation :=
          sortBy compareStartDate (filter hasLocation (details_milestones d)) in
        withSeaWaypoints 0 (portPointsFrom 0 milestonesWithLocation)
  end.

(** [extractCountry] *)
Definition extractCountry (location : string) : string :=
  let parts := map trim (split_comma location) in
  orElse (last parts EmptyString) location.

Definition coastalPoints (isOrigin : bool) : list (string * Coords) :=
  [ ("CHINA", if isOrigin then (31.2304, 121.4737) else (36.0667, 120.3833));
    ("PAKISTAN", (24.8607, 67.0011));
    ("UAE", (25.2048, 55.2708));
    ("UNITED ARAB EMIRATES", (25.2048, 55.2708));
    ("THAILAND", (13.0833, 100.8833));
    ("SOUTH KOREA", (35.1796, 129.0756));
    ("KOREA", (35.1796, 129.0756));
    ("USA", if isOrigin then (34.0522, -118.2437) else (40.7128, -74.0060));
    ("UNITED STATES", if isOrigin then (34.0522, -118.2437) else (40.7128, -74.0060));
    ("BRAZIL", (-23.9608, -46.3331));
    ("INDIA", (19.0760, 72.8777));
    ("QATAR", (25.2854, 51.5310)) ]%Q.

Definition getCoastalPoint (country : string) (isOrigin : bool) : option Coords :=
  let normalized := trim (toUpperCase country) in
  match lookup normalized (coastalPoints isOrigin) with
  | Some c => Some c
  | None =>
      match find (fun kv => includes normalized (fst kv) || includes (fst kv) normalized)
                 (coastalPoints isOrigin) with
      | Some (_, c) => Some c
      | None => None
      end
  end.

(** [Math.abs(a[0] - b[0]) > 0.5 || Math.abs(a[1] - b[1]) > 0.5] *)
Definition farApart (a b : Coords) : bool :=
  negb (Qle_bool (Qabs (fst a - fst b)) 0.5)
  || negb (Qle_bool (Qabs (snd a - snd b)) 0.5).

(** Tier 3: the calculated route. *)
Definition calculatedRoute (shipment : Shipment) : list RoutePoint :=
  match getLocationCoordinates (origin shipment),
        getLocationCoordinates (destination shipment) with
  | Some originCoords, Some destCoords =>
      let originCountry := extractCountry (origin shipment) in
      let destCountry := extractCountry (destination shipment) in
      let originCoastal :=
        match getCoastalPoint originCountry true with Some c => c | None => originCoords end in
      let destCoastal :=
        match getCoastalPoint destCountry false with Some c => c | None => destCoords end in
      let pt c i := {| coords := c; milestone := None; index := i; location := None |} in
      let p1 := [pt originCoords 0] in
      let p2 := if farApart originCoastal originCoords then [pt originCoastal 1] else [] in
      let i2 := 1 + Z.of_nat (List.length p2) in
      let sea := calculateSeaWaypoints originCoastal destCoastal in
      let p3 := mapIdx (fun waypoint k => pt waypoint (i2 + Z.of_nat k)) 0 sea in
      let i3 := i2 + Z.of_nat (List.length sea) in
      let p4 := if farApart destCoastal destCoords then [pt destCoastal i3] else [] in
      let i4 := i3 + Z.of_nat (List.length p4) in
      p1 ++ p2 ++ p3 ++ p4 ++ [pt destCoords i4]
  | _, _ => []
  end.

(** [getShipmentRouteCoordinates]: tracking feed first, then the details
    feed, then the calculated route. *)
Definition getShipmentRouteCoordinates (shipments : list ShipmentTrackingData)
    (detailsData : option ShipmentDetails) (shipment : Shipment) : list RoutePoint :=
  let fallback :=
    match getShipmentRouteCoordinatesFromDetails detailsData (id shipment) with
    | (_ :: _) as detailsRoute => detailsRoute
    | [] => calculatedRoute shipment
    end in
  match getShipmentTrackingData shipments (shipmentKey shipment) with
  | Some trackingData =>
      match trackingRoutePoints (route_coordinates trackingData) with
      | (_ :: _) as routePoints => routePoints
      | [] => fallback
      end
  | None => fallback
  end.

(* ------------------------------------------------------------------ *)
(** ** Example inputs *)

(** A location that no table knows: it reaches the hash fallback. *)
Definition tokyo : string := "Tokyo, Japan".

(** The number of milestones before position [index] of a normalized list
    whose status is [completed]. *)
Definition completedBefore (out : list Milestone) (index : nat) : nat :=
  List.length
    (filter (fun r => MilestoneStatus_eqb (m_status r) completed) (firstn index out)).

(** Scenario D: four milestones of types 0 to 3, only the first one dated,
    at [d1]. *)
Definition scenarioD (d1 : Z) : JsonShipment :=
  {| js_id := "S-1"; js_shipment_order_number := "ORD-1";
     js_origin := "Shanghai, China"; js_destination := "Los Angeles, USA";
     js_shipment_milestones :=
       [ mkJsonMilestone "Empty to shipper" 0 (Some (ValidDate d1)) None;
         mkJsonMilestone "Departure from first POL" 1 None None;
         mkJsonMilestone "Arrival at final POD" 2 None None;
         mkJsonMilestone "Delivery to consignee" 3 None None ];
     js_status := "in_transit" |}.

(** A shipment record with five milestones, one of them a transshipment
    call. *)
Definition fiveMilestones : JsonShipment :=
  {| js_id := "S-5"; js_shipment_order_number := "ORD-5";
     js_origin := "Shanghai, China"; js_destination := "Los Angeles, USA";
     js_shipment_milestones :=
       [ mkJsonMilestone "Empty to shipper" 0 (Some (ValidDate 100)) None;
         mkJsonMilestone "Departure from first POL" 1 (Some (ValidDate 200)) None;
         mkJsonMilestone "Transshipment" 4 None (Some "Singapore");
         mkJsonMilestone "Arrival at final POD" 2 None None;
         mkJsonMilestone "Delivery to consignee" 3 None None ];
     js_status := "in_transit" |}.

(** A shipment record with a single milestone. *)
Definition oneMilestone : JsonShipment :=
  {| js_id := "S-2"; js_shipment_order_number := "ORD-2";
     js_origin := "Karachi, Pakistan"; js_destination := "Dubai, UAE";
     js_shipment_milestones :=
       [ mkJsonMilestone "Empty to shipper" 0 (Some (ValidDate 100)) None ];
     js_status := "pending" |}.

(** A shipment record whose delivery is dated while its departure and
    arrival are not. *)
Definition deliveredEarly : JsonShipment :=
  {| js_id := "S-3"; js_shipment_order_number := "ORD-3";
     js_origin := "Shanghai, China"; js_destination := "Los Angeles, USA";
     js_shipment_milestones :=
       [ mkJsonMilestone "Empty to shipper" 0 (Some (ValidDate 100)) None;
         mkJsonMilestone "Departure from first POL" 1 None None;
         mkJsonMilestone "Arrival at final POD" 2 None None;
         mkJsonMilestone "Delivery to consignee" 3 (Some (ValidDate 200)) None ];
     js_status := "delivered" |}.

(** Tracking records. Scenario B: nothing sailed yet. *)
Definition noPort : PortInfo := mkPortInfo "Port" "PRT" (mkCoordinates 0 0).

Definition positionAt (la lo : Q) : CurrentPosition :=
  {| cp_latitude := la; cp_longitude := lo; cp_location_name := "At sea";
     cp_timestamp := "2025-01-01T00:00:00Z"; cp_vessel_name := Some "MV Example";
     cp_vessel_imo := None; cp_status := "underway" |}.

Definition trackingB : ShipmentTrackingData :=
  {| shipment_order_number := "ORD-B"; shipment_id := "S-B";
     shipment_status := "in_transit";
     route_info := mkRouteInfo noPort noPort [];
     route_coordinates :=
       mkRouteCoordinates [] [mkCoordinates 1 2; mkCoordinates 3 4; mkCoordinates 5 6];
     current_position := positionAt 9 9 |}.

(** Scenario C: delivered, nothing remains. *)
Definition trackingC : ShipmentTrackingData :=
  {| shipment_order_number := "ORD-C"; shipment_id := "S-C";
     shipment_status := "Delivered";
     route_info := mkRouteInfo noPort noPort [];
     route_coordinates :=
       mkRouteCoordinates [mkCoordinates 1 2; mkCoordinates 3 4] [];
     current_position := positionAt 9 9 |}.

(** In transit along the equator: reported at longitude 0, with remaining
    points at longitudes 40, 20 and 30. *)
Definition trackingT : ShipmentTrackingData :=
  {| shipment_order_number := "ORD-T"; shipment_id := "S-T";
     shipment_status := "in_transit";
     route_info := mkRouteInfo noPort noPort [];
     route_coordinates :=
       mkRouteCoordinates [mkCoordinates 0 (-10)]
                          [mkCoordinates 0 40; mkCoordinates 0 20; mkCoordinates 0 30];
     current_position := positionAt 0 0 |}.

Definition trackingFeed : list ShipmentTrackingData := [trackingB; trackingC; trackingT].

Definition shipmentOf (i o : string) : Shipment :=
  {| id := i; orderNumber := o; status := in_transit;
     origin := "Shanghai, China"; destination := "Los Angeles, USA";
     milestones := [] |}.

(** A details record for shipment [S-T], with two located milestones. *)
Definition detailsT : ShipmentDetails :=
  {| details_id := "S-T";
     details_milestones :=
       [ mkDetailsMilestone (Some "Shanghai, China") (Some (ValidDate 100))
                            (Some 31%Q) (Some 121%Q);
         mkDetailsMilestone (Some "Singapore") (Some (ValidDate 200)) None None ] |}.

(* ================================================================== *)
(** * Properties *)

(** ** Coordinate resolver *)

Lemma toInt32_range (z : Z) : - 2 ^ 31 <= toInt32 z < 2 ^ 31.
Proof.
  unfold toInt32.
  pose proof (Z.mod_pos_bound (z + 2 ^ 31) (2 ^ 32) ltac:(lia)). lia.
Qed.

Lemma toInt32_id (z : Z) : - 2 ^ 31 <= z < 2 ^ 31 -> toInt32 z = z.
Proof.
  intros H. unfold toInt32.
  rewrite Z.mod_small by lia. lia.
Qed.

Lemma hashStep_range (hash code : Z) : - 2 ^ 31 <= hashStep hash code < 2 ^ 31.
Proof. unfold hashStep. apply toInt32_range. Qed.

Lemma fold_hashStep_range (codes : list Z) (h : Z) :
  - 2 ^ 31 <= h < 2 ^ 31 ->
  - 2 ^ 31 <= fold_left hashStep codes h < 2 ^ 31.
Proof.
  revert h. induction codes as [| c codes IH]; intros h Hh; simpl.
  - exact Hh.
  - apply IH. apply hashStep_range.
Qed.

(** The hash is a signed 32-bit integer. *)
Lemma locationHash_range (location : string) :
  - 2 ^ 31 <= locationHash location < 2 ^ 31.
Proof. unfold locationHash. apply fold_hashStep_range. lia. Qed.

(** On a non-negative hash the fallback latitude is in [-60, 60). *)
Lemma hashLat_nonneg_range (hash : Z) :
  0 <= hash -> (-60 <= hashLat hash /\ hashLat hash < 60)%Q.
Proof.
  intros H. unfold hashLat.
  pose proof (Z.rem_bound_pos hash 12000 H ltac:(lia)) as [Hlo Hhi].
  set (r := Z.rem hash 12000) in *.
  unfold Qle, Qlt, Qminus, Qdiv, Qplus, Qmult, Qopp, Qinv, inject_Z; simpl.
  lia.
Qed.

(** On a negative hash the truncated remainder is not positive, and the
    fallback latitude is in (-180, -60]. *)
Lemma hashLat_neg_range (hash : Z) :
  hash < 0 -> (-180 < hashLat hash /\ hashLat hash <= -60)%Q.
Proof.
  intros H. unfold hashLat.
  pose proof (Z.rem_bound_pos (- hash) 12000 ltac:(lia) ltac:(lia)) as [Hlo Hhi].
  rewrite Z.rem_opp_l' in Hlo, Hhi.
  set (r := Z.rem hash 12000) in *.
  unfold Qle, Qlt, Qminus, Qdiv, Qplus, Qmult, Qopp, Qinv, inject_Z; simpl.
  lia.
Qed.

(** On a non-negative hash the fallback longitude is in [-170, 170). *)
Lemma hashLng_nonneg_range (hash : Z) :
  0 <= hash < 2 ^ 31 -> (-170 <= hashLng hash /\ hashLng hash < 170)%Q.
Proof.
  intros H. unfold hashLng. rewrite toInt32_id by lia.
  assert (Hs : 0 <= Z.shiftr hash 3) by (apply Z.shiftr_nonneg; lia).
  pose proof (Z.rem_bound_pos (Z.shiftr hash 3) 34000 Hs ltac:(lia)) as [Hlo Hhi].
  set (r := Z.rem (Z.shiftr hash 3) 34000) in *.
  unfold Qle, Qlt, Qminus, Qdiv, Qplus, Qmult, Qopp, Qinv, inject_Z; simpl.
  lia.
Qed.

(** C9. For every input string the resolver returns a coordinate pair:
    each lookup that fails falls through to the next one and the last
    branch, the hash fallback, always answers, so the null of the declared
    result type is never returned. *)
Theorem getLocationCoordinates_total (location : string) :
  (exists c : Coords, getLocationCoordinates location = Some c)
  /\ getLocationCoordinates location <> None.
Proof.
  unfold getLocationCoordinates.
  destruct (lookup _ PORT_COORDINATES) as [p |].
  { split; [eexists; reflexivity | discriminate]. }
  destruct (find _ PORT_COORDINATES) as [[k p] |].
  { split; [eexists; reflexivity | discriminate]. }
  destruct (lookup _ LOCATION_COORDINATES) as [c |].
  { split; [eexists; reflexivity | discriminate]. }
  destruct (find _ LOCATION_COORDINATES) as [[k c] |].
  { split; [eexists; reflexivity | discriminate]. }
  split; [eexists; reflexivity | discriminate].
Qed.

(** When all four lookups fail the answer is the pair derived from the
    hash of the string as it was given. *)
Lemma getLocationCoordinates_fallback (location : string) :
  let normalized := trim (toUpperCase location) in
  lookup normalized PORT_COORDINATES = None ->
  find (fun kv => portPartialMatch normalized (fst kv)) PORT_COORDINATES = None ->
  lookup normalized LOCATION_COORDINATES = None ->
  find (fun kv => locationPartialMatch normalized (fst kv)) LOCATION_COORDINATES = None ->
  getLocationCoordinates location
  = Some (hashLat (locationHash location), hashLng (locationHash location)).
Proof.
  intros normalized H1 H2 H3 H4. unfold getLocationCoordinates.
  fold normalized. rewrite H1, H2, H3, H4. reflexivity.
Qed.

(** C6. ["Tokyo, Japan"] matches no entry of either table, exactly or
    partially; its hash is negative, and the coordinate the resolver
    returns for it has latitude -141.8 and longitude -265.23, below the
    ranges [-60, 60) and [-170, 170). *)
Theorem getLocationCoordinates_tokyo_out_of_range :
  let normalized := trim (toUpperCase tokyo) in
  lookup normalized PORT_COORDINATES = None
  /\ find (fun kv => portPartialMatch normalized (fst kv)) PORT_COORDINATES = None
  /\ lookup normalized LOCATION_COORDINATES = None
  /\ find (fun kv => locationPartialMatch normalized (fst kv)) LOCATION_COORDINATES = None
  /\ locationHash tokyo = -1584476180
  /\ exists la lo : Q,
       getLocationCoordinates tokyo = Some (la, lo)
       /\ (la == -141.80)%Q /\ (lo == -265.23)%Q
       /\ ~ (-60 <= la)%Q /\ ~ (-170 <= lo)%Q.
Proof.
  cbv zeta.
  repeat split; try (vm_compute; reflexivity).
  exists (hashLat (locationHash tokyo)), (hashLng (locationHash tokyo)).
  repeat split; try (vm_compute; reflexivity).
  - vm_compute. intros H. apply H. reflexivity.
  - vm_compute. intros H. apply H. reflexivity.
Qed.

(** ** Milestone normalizer *)

Lemma mapIdx_length {A B : Type} (f : A -> nat -> B) (l : list A) (i : nat) :
  List.length (mapIdx f i l) = List.length l.
Proof.
  revert i. induction l as [| x xs IH]; intros i; simpl; [reflexivity |].
  now rewrite IH.
Qed.

Lemma mapIdx_nth_error {A B : Type} (f : A -> nat -> B) (l : list A) (i k : nat) :
  nth_error (mapIdx f i l) k = option_map (fun x => f x (i + k)%nat) (nth_error l k).
Proof.
  revert i k. induction l as [| x xs IH]; intros i k.
  - destruct k; reflexivity.
  - destruct k as [| k]; simpl.
    + now rewrite Nat.add_0_r.
    + rewrite IH. now rewrite Nat.add_succ_r.
Qed.

Lemma dateLe_true_iff (d : JsDate) (now : Z) :
  dateLe d now = true <-> exists t, d = ValidDate t /\ t <= now.
Proof.
  destruct d as [t |]; simpl.
  - rewrite Z.leb_le. split.
    + intros H. now exists t.
    + intros [t' [E H]]. now inversion E; subst.
  - split; [discriminate | intros [t [E _]]; discriminate].
Qed.

(** A milestone is [completed] exactly when it is dated no later than
    [now]. *)
Lemma transformMilestone_completed_iff now m index all o d :
  m_status (transformMilestone now m index all o d) = completed
  <-> datedBy now m = true.
Proof.
  unfold transformMilestone, datedBy; simpl.
  destruct (start_date m) as [dt |].
  - destruct (dateLe dt now).
    + tauto.
    + destruct (completedCount now index all =? index)%nat;
        split; discriminate.
  - destruct (completedCount now index all =? index)%nat;
      split; discriminate.
Qed.

(** What a milestone that is not [completed] gets. *)
Lemma transformMilestone_pending now m index all o d :
  datedBy now m = false ->
  m_status (transformMilestone now m index all o d)
  = if (completedCount now index all =? index)%nat then current else upcoming.
Proof.
  unfold transformMilestone, datedBy; simpl.
  destruct (start_date m) as [dt |]; [| reflexivity].
  intros ->. reflexivity.
Qed.

(** The count taken by [transformMilestone] over the raw records is the
    number of [completed] milestones before [index] in the output. *)
Lemma completedCount_from now index all' o d (l : list JsonMilestone) (i : nat) :
  List.length (filterIdx (fun m idx => (idx <? index)%nat && datedBy now m) i l)
  = completedBefore
      (mapIdx (fun m idx => transformMilestone now m idx all' o d) i l) (index - i).
Proof.
  unfold completedBefore.
  revert i. induction l as [| x xs IH]; intros i; cbn [filterIdx mapIdx].
  - now rewrite firstn_nil.
  - destruct (i <? index)%nat eqn:Hlt.
    + apply Nat.ltb_lt in Hlt.
      replace (index - i)%nat with (S (index - S i)) by lia.
      cbn [firstn filter andb].
      destruct (datedBy now x) eqn:Hd.
      * apply (transformMilestone_completed_iff now x i all' o d) in Hd.
        rewrite Hd. cbn [MilestoneStatus_eqb List.length]. f_equal. apply IH.
      * assert (Hs : m_status (transformMilestone now x i all' o d) <> completed).
        { intros Hc. apply transformMilestone_completed_iff in Hc. congruence. }
        destruct (m_status (transformMilestone now x i all' o d));
          [congruence | apply IH | apply IH].
    + apply Nat.ltb_ge in Hlt. cbn [andb].
      replace (index - i)%nat with 0%nat by lia.
      rewrite IH. replace (index - S i)%nat with 0%nat by lia.
      reflexivity.
Qed.

Lemma completedCount_completedBefore now (js : JsonShipment) (index : nat) :
  completedCount now index (js_shipment_milestones js)
  = completedBefore (transformMilestones now js) index.
Proof.
  unfold completedCount, transformMilestones.
  rewrite (completedCount_from now index (js_shipment_milestones js)
             (orElse (js_origin js) "Unknown") (orElse (js_destination js) "Unknown")).
  now rewrite Nat.sub_0_r.
Qed.

(** C3. In the list normalized at time [now], the milestone at [index] is
    [completed] iff its record has a date and that date is no later than
    [now]; a milestone that is not completed is [current] iff the number of
    completed milestones before it equals [index], with or without a date,
    and [upcoming] otherwise. For the list of scenario D, whose only date
    is [d1 <= now], the statuses are completed, current, upcoming,
    upcoming. *)
Theorem transformMilestone_status_classification (now : Z) (js : JsonShipment) :
  let out := transformMilestones now js in
  (forall (index : nat) (m : JsonMilestone),
     nth_error (js_shipment_milestones js) index = Some m ->
     exists r : Milestone,
       nth_error out index = Some r
       /\ (m_status r = completed
           <-> exists t, start_date m = Some (ValidDate t) /\ t <= now)
       /\ (m_status r <> completed ->
           (m_status r = current <-> completedBefore out index = index))
       /\ (m_status r = upcoming
           <-> m_status r <> completed /\ completedBefore out index <> index))
  /\ (forall d1 : Z, d1 <= now ->
        map m_status (transformMilestones now (scenarioD d1))
        = [completed; current; upcoming; upcoming]).
Proof.
  intros out. split.
  - intros index m Hm.
    set (o := orElse (js_origin js) "Unknown").
    set (d := orElse (js_destination js) "Unknown").
    exists (transformMilestone now m index (js_shipment_milestones js) o d).
    assert (Hcompleted :
      m_status (transformMilestone now m index (js_shipment_milestones js) o d) = completed
      <-> exists t, start_date m = Some (ValidDate t) /\ t <= now).
    { rewrite transformMilestone_completed_iff. unfold datedBy.
      destruct (start_date m) as [dt |].
      - rewrite dateLe_true_iff. split.
        + intros [t [-> Ht]]. now exists t.
        + intros [t [E Ht]]. inversion E; subst. now exists t.
      - split; [discriminate | intros [t [E _]]; discriminate]. }
    split; [| split; [exact Hcompleted | split]].
    + unfold out, transformMilestones. rewrite mapIdx_nth_error, Hm. reflexivity.
    + intros Hnc.
      assert (Hd : datedBy now m = false).
      { destruct (datedBy now m) eqn:E; [| reflexivity].
        exfalso. apply Hnc. now apply transformMilestone_completed_iff. }
      rewrite (transformMilestone_pending _ _ _ _ _ _ Hd).
      unfold out. rewrite <- completedCount_completedBefore.
      destruct (completedCount now index (js_shipment_milestones js) =? index)%nat eqn:E.
      * apply Nat.eqb_eq in E. tauto.
      * apply Nat.eqb_neq in E. split; [discriminate | contradiction].
    + unfold out. rewrite <- completedCount_completedBefore.
      destruct (datedBy now m) eqn:Hd.
      * apply (transformMilestone_completed_iff now m index
                 (js_shipment_milestones js) o d) in Hd.
        rewrite Hd. split; [discriminate | intros [H _]; congruence].
      * rewrite (transformMilestone_pending _ _ _ _ _ _ Hd).
        destruct (completedCount now index (js_shipment_milestones js) =? index)%nat eqn:E.
        -- apply Nat.eqb_eq in E. split; [discriminate | intros [_ H]; contradiction].
        -- apply Nat.eqb_neq in E. split; [intros _; split; [discriminate | exact E] | reflexivity].
  - intros d1 Hd1.
    assert (Hle : (d1 <=? now) = true) by now apply Z.leb_le.
    unfold transformMilestones, scenarioD, transformMilestone, completedCount, datedBy;
      simpl. rewrite Hle. reflexivity.
Qed.

(** The classification at the second milestone of scenario D, dated
    500 and read at time 1000. *)
Lemma transformMilestone_status_classification_witness :
  (exists r : Milestone,
     nth_error (transformMilestones 1000 (scenarioD 500)) 1 = Some r
     /\ m_status r = current)
  /\ map m_status (transformMilestones 1000 (scenarioD 500))
     = [completed; current; upcoming; upcoming].
Proof.
  destruct (transformMilestone_status_classification 1000 (scenarioD 500)) as [H1 H2].
  split.
  - destruct (H1 1%nat (mkJsonMilestone "Departure from first POL" 1 None None) eq_refl)
      as [r [Hr _]].
    exists r. split; [exact Hr |].
    vm_compute in Hr. inversion Hr. reflexivity.
  - apply H2. lia.
Defined.

(** ** Route stops *)

Lemma insertSorted_length {A : Type} (cmp : A -> A -> Z) (x : A) (l : list A) :
  List.length (insertSorted cmp x l) = S (List.length l).
Proof.
  induction l as [| y ys IH]; simpl; [reflexivity |].
  destruct (cmp x y <=? 0); simpl; [reflexivity | now rewrite IH].
Qed.

Lemma sortBy_length {A : Type} (cmp : A -> A -> Z) (l : list A) :
  List.length (sortBy cmp l) = List.length l.
Proof.
  induction l as [| x xs IH]; simpl; [reflexivity |].
  rewrite insertSorted_length. now rewrite IH.
Qed.

(** With enough fuel the loop stops on its own test, having appended the
    placeholders of the positions that were missing. *)
Lemma padStops_spec (shipment : Shipment) (fuel : nat) (stops : list RouteStop) :
  (4 - List.length stops <= fuel)%nat ->
  padStops fuel shipment stops
  = (stops ++ map (placeholderStop shipment)
                  (seq (List.length stops) (4 - List.length stops)))%list.
Proof.
  revert stops. induction fuel as [| fuel IH]; intros stops Hfuel;
    cbn [padStops]; destruct (List.length stops <? 4)%nat eqn:E.
  - apply Nat.ltb_lt in E. lia.
  - apply Nat.ltb_ge in E.
    replace (4 - List.length stops)%nat with 0%nat by lia.
    cbn [seq map]. now rewrite app_nil_r.
  - apply Nat.ltb_lt in E.
    rewrite IH by (rewrite length_app; cbn [List.length]; lia).
    rewrite length_app. cbn [List.length].
    replace (4 - List.length stops)%nat with (S (4 - (List.length stops + 1))) by lia.
    cbn [seq map]. rewrite <- app_assoc. cbn [app].
    now replace (List.length stops + 1)%nat with (S (List.length stops)) by lia.
  - apply Nat.ltb_ge in E.
    replace (4 - List.length stops)%nat with 0%nat by lia.
    cbn [seq map]. now rewrite app_nil_r.
Qed.

Lemma coreMilestones_length (shipment : Shipment) :
  (List.length (coreMilestones shipment) <= List.length (milestones shipment))%nat.
Proof.
  unfold coreMilestones. rewrite sortBy_length. apply filter_length_le.
Qed.

Lemma routeStops_unfold (shipment : Shipment) :
  let k := List.length (coreMilestones shipment) in
  routeStops shipment
  = firstn 4 (map stopOfMilestone (coreMilestones shipment)
              ++ map (placeholderStop shipment) (seq k (4 - k)))%list.
Proof.
  intros k. unfold routeStops.
  rewrite padStops_spec by lia.
  now rewrite length_map.
Qed.

Lemma transformMilestones_length (now : Z) (js : JsonShipment) :
  List.length (transformMilestones now js) = List.length (js_shipment_milestones js).
Proof. unfold transformMilestones. apply mapIdx_length. Qed.

(** C5, as the code has it. Whatever the number of milestones, the card
    shows exactly four stops: the core milestones in canonical order, cut
    after the fourth, then a placeholder at every position that is left,
    at the origin for positions 0 and 1 and at the destination for 2 and
    3, upcoming and without date. The normalizer itself returns one
    milestone per record. *)
Theorem routeStops_four_stops (shipment : Shipment) :
  let k := List.length (coreMilestones shipment) in
  List.length (routeStops shipment) = 4%nat
  /\ (k <= List.length (milestones shipment))%nat
  /\ (forall i : nat, (i < 4)%nat -> (i < k)%nat ->
        nth_error (routeStops shipment) i
        = option_map stopOfMilestone (nth_error (coreMilestones shipment) i))
  /\ (forall i : nat, (k <= i < 4)%nat ->
        exists name : string,
          nth_error milestoneNames i = Some name
          /\ nth_error (routeStops shipment) i
             = Some {| rs_location :=
                         if (i <? 2)%nat then origin shipment else destination shipment;
                       rs_date := None;
                       rs_status := upcoming;
                       rs_milestoneName := name |})
  /\ (forall (now : Z) (js : JsonShipment),
        List.length (milestones (transformJsonShipment now js))
        = List.length (js_shipment_milestones js)).
Proof.
  intros k. pose proof (routeStops_unfold shipment) as Hu. cbv zeta in Hu. fold k in Hu.
  split; [| split; [| split; [| split]]].
  - rewrite Hu, length_firstn, length_app, !length_map, length_seq. fold k. lia.
  - apply coreMilestones_length.
  - intros i Hi Hk. rewrite Hu.
    rewrite nth_error_firstn.
    destruct (i <? 4)%nat eqn:E; [| apply Nat.ltb_ge in E; lia].
    rewrite nth_error_app1 by (rewrite length_map; fold k; lia).
    apply nth_error_map.
  - intros i [Hk Hi]. rewrite Hu.
    assert (Hname : exists name, nth_error milestoneNames i = Some name
                                 /\ orElse name "Unknown" = name).
    { destruct i as [| [| [| [| i]]]]; try lia; simpl; eexists; split; reflexivity. }
    destruct Hname as [name [Hn Hor]]. exists name. split; [exact Hn |].
    rewrite nth_error_firstn.
    destruct (i <? 4)%nat eqn:E; [| apply Nat.ltb_ge in E; lia].
    rewrite nth_error_app2 by (rewrite length_map; fold k; lia).
    rewrite length_map. fold k.
    rewrite nth_error_map.
    rewrite nth_error_seq.
    destruct (i - k <? 4 - k)%nat eqn:E2; [| apply Nat.ltb_ge in E2; lia].
    simpl. replace (k + (i - k))%nat with i by lia.
    unfold placeholderStop. rewrite Hn, Hor. reflexivity.
  - intros now js. simpl. apply transformMilestones_length.
Qed.

(** The stops of a shipment with a single milestone: the milestone, then
    three placeholders. *)
Lemma routeStops_four_stops_witness :
  List.length (routeStops (transformJsonShipment 1000 oneMilestone)) = 4%nat
  /\ nth_error (routeStops (transformJsonShipment 1000 oneMilestone)) 0
     = Some (mkRouteStop "Karachi, Pakistan" (Some (ValidDate 100)) completed
                         "Empty to shipper")
  /\ nth_error (routeStops (transformJsonShipment 1000 oneMilestone)) 1
     = Some (mkRouteStop "Karachi, Pakistan" None upcoming "Departure from first POL")
  /\ nth_error (routeStops (transformJsonShipment 1000 oneMilestone)) 3
     = Some (mkRouteStop "Dubai, UAE" None upcoming "Delivery to consignee").
Proof.
  destruct (routeStops_four_stops (transformJsonShipment 1000 oneMilestone))
    as [Hlen [_ [Hcore [Hpad _]]]].
  split; [exact Hlen | split; [| split]].
  - rewrite (Hcore 0%nat); [reflexivity | lia | vm_compute; lia].
  - destruct (Hpad 1%nat) as [name [Hn Hs]]; [vm_compute; lia |].
    vm_compute in Hn. inversion Hn; subst name. exact Hs.
  - destruct (Hpad 3%nat) as [name [Hn Hs]]; [vm_compute; lia |].
    vm_compute in Hn. inversion Hn; subst name. exact Hs.
Defined.

(** C5, as stated, fails on a list of five milestones: the card shows four
    stops, not five. *)
Lemma routeStops_five_milestones_counterexample :
  (4 <= List.length (milestones (transformJsonShipment 1000 fiveMilestones)))%nat
  /\ List.length (milestones (transformJsonShipment 1000 fiveMilestones)) = 5%nat
  /\ List.length (routeStops (transformJsonShipment 1000 fiveMilestones)) = 4%nat
  /\ List.length (routeStops (transformJsonShipment 1000 fiveMilestones))
     <> List.length (milestones (transformJsonShipment 1000 fiveMilestones)).
Proof.
  repeat split; try (vm_compute; reflexivity).
  - vm_compute. lia.
  - vm_compute. discriminate.
Qed.

(** ** Progress *)

Lemma findIndexFrom_range {A : Type} (p : A -> bool) (l : list A) (i : Z) :
  findIndexFrom p i l = -1
  \/ i <= findIndexFrom p i l < i + Z.of_nat (List.length l).
Proof.
  revert i. induction l as [| x xs IH]; intros i; cbn [findIndexFrom List.length].
  - now left.
  - destruct (p x).
    + right. lia.
    + destruct (IH (i + 1)) as [H | H]; [now left | right; lia].
Qed.

Lemma findIndexFrom_none {A : Type} (p : A -> bool) (l : list A) (i : Z) :
  (forall x, In x l -> p x = false) -> findIndexFrom p i l = -1.
Proof.
  revert i. induction l as [| x xs IH]; intros i H; cbn [findIndexFrom].
  - reflexivity.
  - rewrite (H x (or_introl eq_refl)). apply IH.
    intros y Hy. apply H. now right.
Qed.

(** [findIndex] returns the position of the first element that satisfies
    the test. *)
Lemma findIndexFrom_first {A : Type} (p : A -> bool) (l : list A) (i : Z) (k : nat) (x : A) :
  nth_error l k = Some x -> p x = true ->
  (forall j y, (j < k)%nat -> nth_error l j = Some y -> p y = false) ->
  findIndexFrom p i l = i + Z.of_nat k.
Proof.
  revert i k. induction l as [| z zs IH]; intros i k Hk Hp Hbefore.
  - destruct k; discriminate.
  - destruct k as [| k]; cbn [findIndexFrom].
    + simpl in Hk. inversion Hk; subst. rewrite Hp. lia.
    + rewrite (Hbefore 0%nat z ltac:(lia) eq_refl).
      rewrite (IH (i + 1) k Hk Hp); [lia |].
      intros j y Hj Hy. apply (Hbefore (S j) y); [lia | exact Hy].
Qed.

Lemma completedStops_range (stops : list RouteStop) :
  0 <= completedStops stops <= Z.of_nat (List.length stops).
Proof.
  unfold completedStops.
  pose proof (filter_length_le
                (fun s => MilestoneStatus_eqb (rs_status s) completed) stops).
  lia.
Qed.

Lemma completedStops_all (stops : list RouteStop) :
  (forall s, In s stops -> rs_status s = completed) ->
  completedStops stops = Z.of_nat (List.length stops).
Proof.
  intros H. unfold completedStops. f_equal.
  induction stops as [| s ss IH]; [reflexivity |].
  cbn [filter]. rewrite (H s (or_introl eq_refl)). cbn [MilestoneStatus_eqb List.length].
  f_equal. apply IH. intros y Hy. apply H. now right.
Qed.

Lemma completedStops_none (stops : list RouteStop) :
  (forall s, In s stops -> rs_status s <> completed) ->
  completedStops stops = 0.
Proof.
  intros H. unfold completedStops.
  induction stops as [| s ss IH]; [reflexivity |].
  cbn [filter].
  destruct (rs_status s) eqn:E; cbn [MilestoneStatus_eqb].
  - exfalso. now apply (H s (or_introl eq_refl)).
  - apply IH. intros y Hy. apply H. now right.
  - apply IH. intros y Hy. apply H. now right.
Qed.

Lemma lastReachedIndex_range (stops : list RouteStop) :
  -1 <= lastReachedIndex stops < Z.of_nat (List.length stops)
  \/ (stops = [] /\ lastReachedIndex stops = -1).
Proof.
  unfold lastReachedIndex, currentStopIndex, findIndex.
  pose proof (completedStops_range stops) as Hc.
  destruct (findIndexFrom_range
              (fun s => MilestoneStatus_eqb (rs_status s) current) stops 0) as [H | H].
  - rewrite H. simpl. destruct stops as [| s ss].
    + right. split; [reflexivity |]. reflexivity.
    + left. lia.
  - destruct (findIndexFrom _ 0 stops >=? 0) eqn:E; left; lia.
Qed.

(** A ratio of two integers [0 <= a <= b], [0 < b], scaled to percent. *)
Lemma percent_bounds (a b : Z) :
  0 <= a <= b -> 0 < b ->
  (0 <= inject_Z a / inject_Z b * 100 /\ inject_Z a / inject_Z b * 100 <= 100)%Q.
Proof.
  intros Ha Hb. destruct b as [| pb | pb]; try lia.
  unfold Qle, Qdiv, Qmult, Qinv, inject_Z; simpl. split; nia.
Qed.

Lemma percent_full (b : Z) :
  0 < b -> (inject_Z b / inject_Z b * 100 == 100)%Q.
Proof.
  intros Hb. destruct b as [| pb | pb]; try lia.
  unfold Qeq, Qdiv, Qmult, Qinv, inject_Z; simpl. nia.
Qed.

Lemma percent_zero (b : Z) :
  (inject_Z 0 / inject_Z b * 100 == 0)%Q.
Proof. unfold Qeq, Qdiv, Qmult; simpl. reflexivity. Qed.

Lemma progress_formula (stops : list RouteStop) :
  stops <> [] ->
  (progress stops
   == inject_Z (lastReachedIndex stops + 1) / inject_Z (Z.of_nat (List.length stops)) * 100)%Q.
Proof.
  intros Hne. unfold progress.
  assert (Hlen : 0 < Z.of_nat (List.length stops)).
  { destruct stops; [congruence | simpl; lia]. }
  destruct (Z.of_nat (List.length stops) >? 0) eqn:E1; [| lia].
  destruct (lastReachedIndex stops >=? 0) eqn:E2; cbn [andb].
  - reflexivity.
  - destruct (lastReachedIndex_range stops) as [H | [H _]]; [| congruence].
    replace (lastReachedIndex stops) with (-1) by lia.
    symmetry. apply percent_zero.
Qed.

Lemma progress_range (stops : list RouteStop) :
  (0 <= progress stops /\ progress stops <= 100)%Q.
Proof.
  unfold progress.
  destruct (Z.of_nat (List.length stops) >? 0) eqn:E1; cbn [andb];
    [| split; [apply Qle_refl | discriminate]].
  destruct (lastReachedIndex stops >=? 0) eqn:E2;
    [| split; [apply Qle_refl | discriminate]].
  apply percent_bounds; [| lia].
  destruct (lastReachedIndex_range stops) as [H | [_ H]]; lia.
Qed.

(** C4, as the code has it. The bar width is the percentage
    [(lastReachedIndex + 1) / totalStops * 100], where [lastReachedIndex] is
    the position of the first current stop if there is one and the number
    of completed stops minus one otherwise; as a fraction it lies in
    [0, 1]; it is 0 when no stop is completed or current; it is 1 when
    every stop is completed, and when the first current stop is the last
    stop. *)
Theorem progress_formula_and_bounds (stops : list RouteStop) :
  let total := Z.of_nat (List.length stops) in
  (stops <> [] ->
   (progress stops / 100 == inject_Z (lastReachedIndex stops + 1) / inject_Z total)%Q)
  /\ (forall (i : nat) (s : RouteStop),
        nth_error stops i = Some s -> rs_status s = current ->
        (forall j y, (j < i)%nat -> nth_error stops j = Some y -> rs_status y <> current) ->
        lastReachedIndex stops = Z.of_nat i)
  /\ ((forall s, In s stops -> rs_status s <> current) ->
      lastReachedIndex stops = completedStops stops - 1)
  /\ (0 <= progress stops / 100 /\ progress stops / 100 <= 1)%Q
  /\ ((forall s, In s stops -> rs_status s = upcoming) -> (progress stops == 0)%Q)
  /\ (stops <> [] -> (forall s, In s stops -> rs_status s = completed) ->
      (progress stops / 100 == 1)%Q)
  /\ (forall s, nth_error stops (List.length stops - 1) = Some s ->
      rs_status s = current ->
      (forall j y, (j < List.length stops - 1)%nat ->
                   nth_error stops j = Some y -> rs_status y <> current) ->
      (progress stops / 100 == 1)%Q).
Proof.
  intros total.
  assert (Hfirst : forall (i : nat) (s : RouteStop),
        nth_error stops i = Some s -> rs_status s = current ->
        (forall j y, (j < i)%nat -> nth_error stops j = Some y -> rs_status y <> current) ->
        lastReachedIndex stops = Z.of_nat i).
  { intros i s Hi Hs Hbefore. unfold lastReachedIndex, currentStopIndex, findIndex.
    rewrite (findIndexFrom_first _ stops 0 i s Hi).
    - destruct (0 + Z.of_nat i >=? 0) eqn:E; lia.
    - now rewrite Hs.
    - intros j y Hj Hy. specialize (Hbefore j y Hj Hy).
      destruct (rs_status y); [reflexivity | congruence | reflexivity]. }
  assert (Hnone : (forall s, In s stops -> rs_status s <> current) ->
      lastReachedIndex stops = completedStops stops - 1).
  { intros H. unfold lastReachedIndex, currentStopIndex, findIndex.
    rewrite findIndexFrom_none; [reflexivity |].
    intros x Hx. specialize (H x Hx).
    destruct (rs_status x); [reflexivity | congruence | reflexivity]. }
  assert (Hscale : forall q : Q, (q * 100 / 100 == q)%Q).
  { intros q. field. }
  split; [| split; [exact Hfirst | split; [exact Hnone | split; [| split; [| split]]]]].
  - intros Hne. rewrite (progress_formula stops Hne). apply Hscale.
  - destruct (progress_range stops) as [H0 H100]. split.
    + apply Qle_shift_div_l; [reflexivity |]. now rewrite Qmult_0_l.
    + apply Qle_shift_div_r; [reflexivity |]. now rewrite Qmult_1_l.
  - intros Hup. unfold progress.
    rewrite Hnone by (intros s Hs; rewrite (Hup s Hs); discriminate).
    rewrite completedStops_none by (intros s Hs; rewrite (Hup s Hs); discriminate).
    simpl. rewrite andb_false_r. reflexivity.
  - intros Hne Hall. rewrite (progress_formula stops Hne).
    rewrite Hnone by (intros s Hs; rewrite (Hall s Hs); discriminate).
    rewrite (completedStops_all stops Hall).
    replace (Z.of_nat (List.length stops) - 1 + 1) with (Z.of_nat (List.length stops)) by lia.
    rewrite percent_full; [reflexivity |].
    destruct stops; [congruence | simpl; lia].
  - intros s Hs Hcur Hbefore.
    assert (Hne : stops <> []).
    { intros ->. destruct (0 - 1)%nat; discriminate. }
    assert (Hlen : 0 < Z.of_nat (List.length stops)).
    { destruct stops; [congruence | simpl; lia]. }
    rewrite (progress_formula stops Hne).
    rewrite (Hfirst _ s Hs Hcur Hbefore).
    replace (Z.of_nat (List.length stops - 1) + 1) with (Z.of_nat (List.length stops)) by lia.
    rewrite percent_full; [reflexivity | exact Hlen].
Qed.

(** The progress of the stops of scenario D: the second of four stops is
    the current one, the bar is half full. *)
Lemma progress_formula_and_bounds_witness :
  lastReachedIndex (routeStops (transformJsonShipment 1000 (scenarioD 500))) = 1
  /\ (progress (routeStops (transformJsonShipment 1000 (scenarioD 500))) / 100
      == inject_Z 2 / inject_Z 4)%Q.
Proof.
  destruct (progress_formula_and_bounds
              (routeStops (transformJsonShipment 1000 (scenarioD 500))))
    as [Hformula [Hfirst _]].
  assert (Hidx : lastReachedIndex (routeStops (transformJsonShipment 1000 (scenarioD 500))) = 1).
  { apply (Hfirst 1%nat
             (mkRouteStop "Shanghai, China" (Some (ValidDate 1000)) current
                          "Departure from first POL")).
    - reflexivity.
    - reflexivity.
    - intros j y Hj Hy. destruct j as [| j]; [| lia].
      vm_compute in Hy. inversion Hy. simpl. discriminate. }
  split; [exact Hidx |].
  rewrite Hformula by (vm_compute; discriminate).
  rewrite Hidx. reflexivity.
Defined.

(** C4, as stated, fails when a later stop is completed while an earlier
    one is still current: the last stop is completed and the bar is half
    full. *)
Lemma progress_last_completed_counterexample :
  map rs_status (routeStops (transformJsonShipment 1000 deliveredEarly))
  = [completed; current; upcoming; completed]
  /\ (progress (routeStops (transformJsonShipment 1000 deliveredEarly)) == 50)%Q
  /\ ~ (progress (routeStops (transformJsonShipment 1000 deliveredEarly)) / 100 == 1)%Q.
Proof.
  split; [vm_compute; reflexivity | split].
  - vm_compute. reflexivity.
  - vm_compute. discriminate.
Qed.

(** ** Great-circle distance *)

Lemma Q2R_zero : Q2R 0 = 0%R.
Proof. unfold Q2R; simpl. lra. Qed.

(** [Math.atan2] gives back an angle of the first quadrant from its sine
    and cosine. *)
Lemma atan2_sin_cos (x : R) :
  (0 <= x <= PI / 2)%R -> atan2 (sin x) (cos x) = x.
Proof.
  intros [H0 H2]. unfold atan2.
  destruct (Rlt_dec 0 (cos x)) as [Hc | Hc].
  - assert (Hx : (x < PI / 2)%R).
    { destruct (Req_dec x (PI / 2)) as [E | E]; [| lra].
      rewrite E, cos_PI2 in Hc. lra. }
    change (sin x / cos x)%R with (tan x).
    apply atan_tan. lra.
  - assert (Hx : x = (PI / 2)%R).
    { destruct (Req_dec x (PI / 2)) as [E | E]; [exact E |].
      exfalso. apply Hc. apply cos_gt_0; lra. }
    rewrite Hx, cos_PI2, sin_PI2.
    destruct (Rlt_dec 0 0) as [F | _]; [lra |].
    destruct (Rlt_dec 0 1) as [_ | F]; [reflexivity | lra].
Qed.

(** Along the equator the haversine distance is the arc length of the
    difference of longitude. *)
Lemma calculateDistance_equator (lon : Q) :
  (0 <= Q2R lon <= 180)%R ->
  calculateDistance 0 0 0 lon = (6371 * (Q2R lon * PI / 180))%R.
Proof.
  intros [Hlo Hhi]. unfold calculateDistance.
  pose proof PI_RGT_0 as Hpi.
  replace (Q2R (0 - 0)) with 0%R by (unfold Q2R; simpl; lra).
  replace (Q2R (lon - 0)) with (Q2R lon) by (rewrite Q2R_minus, Q2R_zero; lra).
  rewrite Q2R_zero.
  replace (0 * PI / 180 / 2)%R with 0%R by lra.
  replace (0 * PI / 180)%R with 0%R by lra.
  rewrite sin_0, cos_0.
  set (x := (Q2R lon * PI / 180 / 2)%R).
  assert (Hx : (0 <= x <= PI / 2)%R).
  { unfold x. split.
    - apply Rmult_le_pos; [| lra]. apply Rmult_le_pos; [| lra].
      apply Rmult_le_pos; lra.
    - assert (Q2R lon * PI <= 180 * PI)%R by (apply Rmult_le_compat_r; lra). lra. }
  replace (0 * 0 + 1 * 1 * sin x * sin x)%R with (sin x * sin x)%R by ring.
  replace (1 - sin x * sin x)%R with (cos x * cos x)%R.
  2:{ pose proof (sin2_cos2 x) as H. unfold Rsqr in H. lra. }
  rewrite !sqrt_square.
  - rewrite (atan2_sin_cos x Hx). unfold x. field.
  - apply cos_ge_0; lra.
  - apply sin_ge_0; lra.
Qed.

(** The distance that [calculateSeaWaypoints] computes is the one of
    [calculateDistance]. *)
Lemma seaDistance_calculateDistance (point1 point2 : Coords) :
  seaDistance point1 point2
  = calculateDistance (fst point1) (snd point1) (fst point2) (snd point2).
Proof.
  unfold seaDistance, calculateDistance. cbv zeta.
  rewrite !Q2R_minus.
  replace ((Q2R (fst point2) * PI / 180 - Q2R (fst point1) * PI / 180) / 2)%R
    with ((Q2R (fst point2) - Q2R (fst point1)) * PI / 180 / 2)%R by field.
  match goal with
  | |- (_ * (_ * atan2 (sqrt ?a) _) = _ * (_ * atan2 (sqrt ?b) _))%R =>
      replace a with b by ring
  end.
  reflexivity.
Qed.

(** ** Waypoint synthesizer *)

(** The three cases of [calculateSeaWaypoints], by haversine distance. *)
Lemma calculateSeaWaypoints_cases (a b : Coords) :
  let d := calculateDistance (fst a) (snd a) (fst b) (snd b) in
  ((5000 < d)%R
   /\ calculateSeaWaypoints a b
      = [ ((fst a + (fst b - fst a) * 0.33) * 0.85, snd a + (snd b - snd a) * 0.33);
          ((fst a + (fst b - fst a) * 0.67) * 0.85, snd a + (snd b - snd a) * 0.67) ]%Q)
  \/ ((2000 < d <= 5000)%R
      /\ calculateSeaWaypoints a b
         = [ ((fst a + (fst b - fst a) * 0.5) * 0.9, snd a + (snd b - snd a) * 0.5) ]%Q)
  \/ ((d <= 2000)%R /\ calculateSeaWaypoints a b = []).
Proof.
  intros d. unfold calculateSeaWaypoints.
  rewrite seaDistance_calculateDistance. fold d.
  destruct (Rgt_dec d 5000) as [H5 | H5].
  - left. split; [lra | reflexivity].
  - destruct (Rgt_dec d 2000) as [H2 | H2].
    + right; left. split; [lra | reflexivity].
    + right; right. split; [lra | reflexivity].
Qed.

Lemma distance_equator_180 : (5000 < calculateDistance 0 0 0 180)%R.
Proof.
  assert (E : Q2R 180 = 180%R) by (unfold Q2R; simpl; lra).
  rewrite calculateDistance_equator; rewrite E; [| lra].
  pose proof PI2_3_2. lra.
Qed.

(** C8, as stated, fails half way round the equator: the one-third and
    two-thirds marks are at longitudes 60 and 120, the waypoints are at
    59.4 and 120.6. *)
Lemma calculateSeaWaypoints_thirds_counterexample :
  (calculateDistance 0 0 0 180 > 5000)%R
  /\ exists w1 w2 : Coords,
       calculateSeaWaypoints (0, 0)%Q (0, 180)%Q = [w1; w2]
       /\ (snd w1 == 59.4)%Q /\ ~ (snd w1 == 0 + (180 - 0) * (1 # 3))%Q
       /\ (snd w2 == 120.6)%Q /\ ~ (snd w2 == 0 + (180 - 0) * (2 # 3))%Q.
Proof.
  split; [exact distance_equator_180 |].
  destruct (calculateSeaWaypoints_cases (0, 0)%Q (0, 180)%Q) as [[Hd E] | [[Hd E] | [Hd E]]];
    simpl in Hd; pose proof distance_equator_180; try lra.
  eexists. eexists. split; [exact E |].
  simpl. repeat split; try reflexivity; intros F; vm_compute in F; discriminate.
Qed.

(** Two antipodal points on a common pair of meridians: over the reals the
    haversine term is 1 and the distance is half the circumference of the
    Earth, 6371 * PI km, far above 5000 km. *)
Lemma calculateDistance_antipodes (la : Q) :
  calculateDistance la 0 (- la) 180 = (6371 * PI)%R
  /\ (5000 < calculateDistance la 0 (- la) 180)%R.
Proof.
  assert (E : calculateDistance la 0 (- la) 180 = (6371 * PI)%R).
  { unfold calculateDistance. cbv zeta.
    rewrite !Q2R_minus, Q2R_opp, Q2R_zero.
    assert (E180 : Q2R 180 = 180%R) by (unfold Q2R; simpl; lra).
    rewrite E180.
    pose proof PI_RGT_0 as Hpi.
    set (p := (Q2R la * PI / 180)%R).
    replace ((- Q2R la - Q2R la) * PI / 180 / 2)%R with (- p)%R by (unfold p; field).
    replace ((180 - 0) * PI / 180 / 2)%R with (PI / 2)%R by field.
    replace (- Q2R la * PI / 180)%R with (- p)%R by (unfold p; field).
    rewrite sin_neg, cos_neg, sin_PI2.
    replace (- sin p * - sin p + cos p * cos p * 1 * 1)%R with 1%R.
    2:{ pose proof (sin2_cos2 p) as H. unfold Rsqr in H. lra. }
    replace (1 - 1)%R with 0%R by lra.
    rewrite sqrt_1, sqrt_0. unfold atan2.
    destruct (Rlt_dec 0 0) as [F | _]; [lra |].
    destruct (Rlt_dec 0 1) as [_ | F]; [field | lra]. }
  split; [exact E |]. rewrite E. pose proof PI2_3_2. lra.
Qed.

Module DoubleFacts.

Import PrimFloat Double.
Local Open Scope float_scope.
Local Set Warnings "-inexact-float".

(** C7. On doubles the haversine term can round above 1. When it is
    1.0000000000000002, the next double after 1, as it is for the antipodal
    points (8, 0) and (-8, 180), the square root of [1 - a] is NaN, the
    distance is NaN on every engine whose [Math.atan2] returns NaN for a NaN
    argument, both comparisons fail and the synthesizer returns no waypoint,
    although the points are half the circumference of the Earth apart. *)
Theorem calculateSeaWaypoints_nan_at_antipodes (M : MathObject) (point1 point2 : Point) :
  (forall y : float, Math_atan2 M y nan = nan) ->
  haversineTerm M point1 point2 = 0x1.0000000000001p+0 ->
  sqrt (1 - haversineTerm M point1 point2) = nan
  /\ seaDistance M point1 point2 = nan
  /\ calculateSeaWaypoints M point1 point2 = [].
Proof.
  intros Hatan Ha.
  assert (Hsqrt : sqrt (1 - haversineTerm M point1 point2) = nan).
  { rewrite Ha. vm_compute. reflexivity. }
  assert (Hd : seaDistance M point1 point2 = nan).
  { unfold seaDistance. cbv zeta. rewrite Hsqrt, Hatan. vm_compute. reflexivity. }
  split; [exact Hsqrt | split; [exact Hd |]].
  unfold calculateSeaWaypoints. cbv zeta. rewrite Hd. reflexivity.
Qed.

(** The pair (8, 0), (-8, 180), with the sines and cosines of its
    arguments: the term is 1.0000000000000002 and no waypoint comes out. *)
Lemma calculateSeaWaypoints_nan_at_antipodes_witness :
  haversineTerm engineAt8 (8, 0) (-8, 180) = 0x1.0000000000001p+0
  /\ seaDistance engineAt8 (8, 0) (-8, 180) = nan
  /\ calculateSeaWaypoints engineAt8 (8, 0) (-8, 180) = [].
Proof.
  assert (Ha : haversineTerm engineAt8 (8, 0) (-8, 180) = 0x1.0000000000001p+0).
  { vm_compute. reflexivity. }
  split; [exact Ha |].
  destruct (calculateSeaWaypoints_nan_at_antipodes engineAt8 (8, 0) (-8, 180))
    as [_ H]; [intros y; reflexivity | exact Ha | exact H].
Defined.

(** C8, as the code has it. Whenever the synthesizer takes its long
    branch, that is, whenever its computed distance compares greater than
    5000, the two waypoints are the linear interpolations at 0.33 and 0.67
    of the way from the first point to the second, with the latitude then
    multiplied by 0.85 and the longitude left as interpolated; when the
    comparison fails there are fewer than two waypoints. *)
Theorem calculateSeaWaypoints_long_branch (M : MathObject) (point1 point2 : Point) :
  ((5000 <? seaDistance M point1 point2) = true ->
   calculateSeaWaypoints M point1 point2
   = [ ((fst point1 + (fst point2 - fst point1) * 0.33) * 0.85,
        snd point1 + (snd point2 - snd point1) * 0.33);
       ((fst point1 + (fst point2 - fst point1) * 0.67) * 0.85,
        snd point1 + (snd point2 - snd point1) * 0.67) ])
  /\ ((5000 <? seaDistance M point1 point2) = false ->
      (List.length (calculateSeaWaypoints M point1 point2) <= 1)%nat).
Proof.
  unfold calculateSeaWaypoints. cbv zeta. split; intros H; rewrite H.
  - reflexivity.
  - destruct (2000 <? seaDistance M point1 point2); cbn [List.length]; lia.
Qed.

(** From (10, 20) to (70, 20), 6671 km along a meridian: the waypoints are
    at latitudes 25.33 and 42.67, that is 29.8 and 50.2 times 0.85, on the
    same meridian. *)
Lemma calculateSeaWaypoints_long_branch_witness :
  seaDistance engineAt10 (10, 20) (70, 20) = 0x1.a0fb212c131edp+12
  /\ calculateSeaWaypoints engineAt10 (10, 20) (70, 20)
     = [ (25.33, 20); (42.67, 20) ].
Proof.
  split; [vm_compute; reflexivity |].
  destruct (calculateSeaWaypoints_long_branch engineAt10 (10, 20) (70, 20)) as [H _].
  rewrite H; [vm_compute; reflexivity | vm_compute; reflexivity].
Defined.

End DoubleFacts.

(** ** Vessel position *)

Lemma LatLng_eta (p : LatLng) : mkLatLng (lat p) (lng p) = p.
Proof. now destruct p. Qed.


(** After the loop of [findClosestSeaWaypoint] the state holds a point of
    the route that no point beats and that every earlier point is strictly
    farther than. *)
Lemma closest_fold (targetLat targetLon : Q) (routePoints : list LatLng) (first : LatLng) :
  routePoints <> [] ->
  exists (i : nat) (p : LatLng),
    nth_error routePoints i = Some p
    /\ fold_left (closestStep targetLat targetLon) routePoints (Infinity, first)
       = (Finite (distanceTo targetLat targetLon p), p)
    /\ (forall q, In q routePoints ->
          (distanceTo targetLat targetLon p <= distanceTo targetLat targetLon q)%R)
    /\ (forall j q, (j < i)%nat -> nth_error routePoints j = Some q ->
          (distanceTo targetLat targetLon p < distanceTo targetLat targetLon q)%R).
Proof.
  set (dist := distanceTo targetLat targetLon).
  induction routePoints as [| x l IH] using rev_ind; [congruence |].
  intros _. rewrite fold_left_app. cbn [fold_left].
  destruct l as [| y l'].
  - exists 0%nat, x. cbn [fold_left app nth_error]. repeat split.
    + intros q [<- | []]. apply Rle_refl.
    + intros j q Hj. lia.
  - destruct (IH ltac:(discriminate)) as [i [p [Hi [Hfold [Hmin Hfirst]]]]].
    rewrite Hfold. unfold closestStep. cbn [fst distLt].
    change (calculateDistance targetLat targetLon (lat x) (lng x)) with (dist x).
    destruct (Rlt_dec (dist x) (dist p)) as [Hlt | Hge].
    + exists (List.length (y :: l')), x. repeat split.
      * rewrite nth_error_app2 by lia. now rewrite Nat.sub_diag.
      * intros q Hq. apply in_app_or in Hq. destruct Hq as [Hq | [<- | []]].
        -- specialize (Hmin q Hq). lra.
        -- apply Rle_refl.
      * intros j q Hj Hq. rewrite nth_error_app1 in Hq by exact Hj.
        apply nth_error_In in Hq. specialize (Hmin q Hq). lra.
    + exists i, p.
      assert (Hi' : (i < List.length (y :: l'))%nat).
      { apply nth_error_Some. congruence. }
      repeat split.
      * rewrite nth_error_app1 by exact Hi'. exact Hi.
      * intros q Hq. apply in_app_or in Hq. destruct Hq as [Hq | [<- | []]].
        -- now apply Hmin.
        -- lra.
      * intros j q Hj Hq. rewrite nth_error_app1 in Hq by lia.
        now apply (Hfirst j q).
Qed.

(** [findClosestSeaWaypoint] on a non-empty route: the first point at
    minimal distance. *)
Lemma findClosestSeaWaypoint_spec (targetLat targetLon : Q) (routePoints : list LatLng) :
  routePoints <> [] ->
  exists (i : nat) (p : LatLng),
    findClosestSeaWaypoint targetLat targetLon routePoints = Some p
    /\ nth_error routePoints i = Some p
    /\ (forall q, In q routePoints ->
          (distanceTo targetLat targetLon p <= distanceTo targetLat targetLon q)%R)
    /\ (forall j q, (j < i)%nat -> nth_error routePoints j = Some q ->
          (distanceTo targetLat targetLon p < distanceTo targetLat targetLon q)%R).
Proof.
  intros Hne. destruct routePoints as [| first rest]; [congruence |].
  destruct (closest_fold targetLat targetLon (first :: rest) first Hne)
    as [i [p [Hi [Hfold [Hmin Hfirst]]]]].
  exists i, p. unfold findClosestSeaWaypoint. rewrite Hfold.
  repeat split; assumption.
Qed.

Lemma length_zero_iff {A : Type} (l : list A) :
  (List.length l =? 0)%nat = true <-> l = [].
Proof.
  destruct l; simpl; split; intros H; try reflexivity; discriminate.
Qed.

(** The branch that [getShipmentTrackingForMap] takes for the vessel
    marker, by the shape of the two routes and the status. *)
Lemma vesselPosition_cases (st : string) (comp rem : list LatLng) (la lo : Q) :
  let v := vesselPosition st comp rem la lo in
  (comp = [] /\ rem <> [] /\ nth_error rem 0 = Some v)
  \/ (comp <> [] /\ (rem = [] \/ isDeliveredOrClosed st = true)
      /\ nth_error comp (List.length comp - 1) = Some v)
  \/ (comp <> [] /\ rem <> [] /\ isDeliveredOrClosed st = false
      /\ findClosestSeaWaypoint la lo rem = Some v)
  \/ (comp = [] /\ rem = [] /\ v = mkLatLng la lo).
Proof.
  intros v. subst v. unfold vesselPosition.
  destruct comp as [| c0 comp'].
  - destruct rem as [| r0 rem'].
    + right; right; right. cbn. repeat split.
    + left. cbn. repeat split. discriminate.
  - cbn [List.length Nat.eqb Nat.ltb Nat.leb andb].
    destruct rem as [| r0 rem'].
    + right; left. cbn [List.length Nat.eqb orb andb].
      split; [discriminate | split; [now left |]].
      apply nth_error_nth'. cbn [List.length]. lia.
    + cbn [List.length Nat.eqb orb].
      destruct (isDeliveredOrClosed st) eqn:Hst; cbn [andb].
      * right; left. split; [discriminate | split; [now right |]].
        apply nth_error_nth'. cbn [List.length]. lia.
      * right; right; left.
        split; [discriminate | split; [discriminate | split; [reflexivity |]]].
        destruct (findClosestSeaWaypoint_spec la lo (r0 :: rem') ltac:(discriminate))
          as [i [p [Hp _]]].
        now rewrite Hp.
Qed.

Lemma getShipmentTrackingForMap_Some shipments shipment t :
  getShipmentTrackingData shipments (shipmentKey shipment) = Some t ->
  exists r : TrackingForMap,
    getShipmentTrackingForMap shipments shipment = Some r
    /\ completedRoute r = map toLatLng (completed_route (route_coordinates t))
    /\ remainingRoute r = map toLatLng (remaining_route (route_coordinates t))
    /\ mkLatLng (mp_lat (currentPosition r)) (mp_lng (currentPosition r))
       = vesselPosition (shipment_status t)
           (map toLatLng (completed_route (route_coordinates t)))
           (map toLatLng (remaining_route (route_coordinates t)))
           (cp_latitude (current_position t)) (cp_longitude (current_position t)).
Proof.
  intros Ht. unfold getShipmentTrackingForMap. rewrite Ht.
  eexists. split; [reflexivity |]. cbn. repeat split.
  apply LatLng_eta.
Qed.


(** C10. The vessel position of [getShipmentTrackingForMap] is a point of
    the completed route, a point of the remaining route, or the reported
    position itself. *)
Theorem getShipmentTrackingForMap_position_membership
    (shipments : list ShipmentTrackingData) (shipment : Shipment) (r : TrackingForMap) :
  getShipmentTrackingForMap shipments shipment = Some r ->
  let pos := mkLatLng (mp_lat (currentPosition r)) (mp_lng (currentPosition r)) in
  In pos (completedRoute r)
  \/ In pos (remainingRoute r)
  \/ exists t : ShipmentTrackingData,
       getShipmentTrackingData shipments (shipmentKey shipment) = Some t
       /\ pos = mkLatLng (cp_latitude (current_position t))
                         (cp_longitude (current_position t)).
Proof.
  intros Hr pos.
  destruct (getShipmentTrackingData shipments (shipmentKey shipment)) as [t |] eqn:Ht.
  2:{ unfold getShipmentTrackingForMap in Hr. rewrite Ht in Hr. discriminate. }
  destruct (getShipmentTrackingForMap_Some shipments shipment t Ht)
    as [r' [Hr' [Hc [Hm Hpos]]]].
  rewrite Hr in Hr'. inversion Hr'; subst r'. clear Hr'.
  subst pos. rewrite Hpos, Hc, Hm.
  destruct (vesselPosition_cases (shipment_status t)
              (map toLatLng (completed_route (route_coordinates t)))
              (map toLatLng (remaining_route (route_coordinates t)))
              (cp_latitude (current_position t)) (cp_longitude (current_position t)))
    as [[_ [_ Hv]] | [[_ [_ Hv]] | [[_ [Hr0 [_ Hv]]] | [_ [_ Hv]]]]].
  - right; left. eapply nth_error_In. exact Hv.
  - left. eapply nth_error_In. exact Hv.
  - right; left.
    destruct (findClosestSeaWaypoint_spec (cp_latitude (current_position t))
                (cp_longitude (current_position t)) _ Hr0)
      as [i [p [Hp [Hi _]]]].
    rewrite Hv in Hp. inversion Hp; subst p.
    eapply nth_error_In. exact Hi.
  - right; right. exists t. split; [reflexivity | exact Hv].
Qed.



(** The marker of scenario B is a point of the remaining route. *)
Lemma getShipmentTrackingForMap_position_membership_witness :
  exists r : TrackingForMap,
    getShipmentTrackingForMap trackingFeed (shipmentOf "S-B" "ORD-B") = Some r
    /\ (In (mkLatLng (mp_lat (currentPosition r)) (mp_lng (currentPosition r)))
           (completedRoute r)
        \/ In (mkLatLng (mp_lat (currentPosition r)) (mp_lng (currentPosition r)))
              (remainingRoute r)
        \/ exists t : ShipmentTrackingData,
             getShipmentTrackingData trackingFeed (shipmentKey (shipmentOf "S-B" "ORD-B"))
             = Some t
             /\ mkLatLng (mp_lat (currentPosition r)) (mp_lng (currentPosition r))
                = mkLatLng (cp_latitude (current_position t))
                           (cp_longitude (current_position t))).
Proof.
  destruct (getShipmentTrackingForMap_Some trackingFeed (shipmentOf "S-B" "ORD-B")
              trackingB eq_refl) as [r [Hr _]].
  exists r. split; [exact Hr |].
  exact (getShipmentTrackingForMap_position_membership trackingFeed
           (shipmentOf "S-B" "ORD-B") r Hr).
Defined.

(** ** Source priority *)

Lemma mapIdx_map {A B C : Type} (f : A -> nat -> B) (g : B -> C) (h : A -> C)
    (l : list A) (i : nat) :
  (forall x k, g (f x k) = h x) -> map g (mapIdx f i l) = map h l.
Proof.
  intros H. revert i. induction l as [| x xs IH]; intros i; cbn [mapIdx map].
  - reflexivity.
  - now rewrite H, IH.
Qed.

Lemma trackingRoutePoints_coords (rc : RouteCoordinates) :
  map coords (trackingRoutePoints rc)
  = map (fun p => (latitude p, longitude p)) (completed_route rc ++ remaining_route rc).
Proof.
  unfold trackingRoutePoints. rewrite !map_app. f_equal; now apply mapIdx_map.
Qed.

Lemma trackingRoutePoints_nonempty (rc : RouteCoordinates) :
  (completed_route rc ++ remaining_route rc)%list <> [] ->
  exists p rest, trackingRoutePoints rc = p :: rest.
Proof.
  unfold trackingRoutePoints.
  destruct (completed_route rc) as [| c cs]; cbn [mapIdx app List.length].
  - destruct (remaining_route rc) as [| m ms]; cbn [mapIdx]; [congruence |].
    intros _. eexists. eexists. reflexivity.
  - intros _. eexists. eexists. reflexivity.
Qed.

(** With a tracking record that has at least one route coordinate, the
    route is the tier-1 route whatever else is available. *)
Lemma getShipmentRouteCoordinates_tracking shipments detailsData shipment t :
  getShipmentTrackingData shipments (shipmentKey shipment) = Some t ->
  (completed_route (route_coordinates t) ++ remaining_route (route_coordinates t))%list <> [] ->
  getShipmentRouteCoordinates shipments detailsData shipment
  = trackingRoutePoints (route_coordinates t).
Proof.
  intros Ht Hne. unfold getShipmentRouteCoordinates. rewrite Ht.
  destruct (trackingRoutePoints_nonempty _ Hne) as [p [rest E]].
  cbv zeta. rewrite E. reflexivity.
Qed.

(** C2. When the tracking feed has a record for the shipment with at least
    one route coordinate, the route of [getShipmentRouteCoordinates] is the
    one built from [completed_route] followed by [remaining_route] of that
    record, point for point; it is the same with no details feed, with any
    other details feed, and for any other shipment record with the same
    key, so that neither the details tier nor the calculated tier
    contributes. *)
Theorem getShipmentRouteCoordinates_tracking_priority
    (shipments : list ShipmentTrackingData) (shipment : Shipment)
    (t : ShipmentTrackingData) :
  getShipmentTrackingData shipments (shipmentKey shipment) = Some t ->
  (completed_route (route_coordinates t) ++ remaining_route (route_coordinates t))%list <> [] ->
  forall detailsData : option ShipmentDetails,
    getShipmentRouteCoordinates shipments detailsData shipment
    = trackingRoutePoints (route_coordinates t)
    /\ map coords (getShipmentRouteCoordinates shipments detailsData shipment)
       = map (fun p => (latitude p, longitude p))
             (completed_route (route_coordinates t) ++ remaining_route (route_coordinates t))
    /\ getShipmentRouteCoordinates shipments detailsData shipment
       = getShipmentRouteCoordinates shipments None shipment
    /\ (forall (other : option ShipmentDetails) (shipment' : Shipment),
          shipmentKey shipment' = shipmentKey shipment ->
          getShipmentRouteCoordinates shipments other shipment'
          = getShipmentRouteCoordinates shipments detailsData shipment).
Proof.
  intros Ht Hne detailsData.
  rewrite (getShipmentRouteCoordinates_tracking shipments detailsData shipment t Ht Hne).
  split; [reflexivity | split; [apply trackingRoutePoints_coords | split]].
  - symmetry. now apply getShipmentRouteCoordinates_tracking.
  - intros other shipment' Hkey.
    apply getShipmentRouteCoordinates_tracking; [| exact Hne].
    now rewrite Hkey.
Qed.

(** Shipment [S-T] has a tracking record and a details record that yields
    a route of its own, starting at (31, 121); the route returned is the
    one of the tracking record. *)
Lemma getShipmentRouteCoordinates_tracking_priority_witness :
  map coords (getShipmentRouteCoordinates trackingFeed (Some detailsT)
                (shipmentOf "S-T" "ORD-T"))
  = [ (0, -10); (0, 40); (0, 20); (0, 30) ]%Q
  /\ getShipmentRouteCoordinates trackingFeed (Some detailsT) (shipmentOf "S-T" "ORD-T")
     = getShipmentRouteCoordinates trackingFeed None (shipmentOf "S-T" "ORD-T")
  /\ exists p rest,
       getShipmentRouteCoordinatesFromDetails (Some detailsT) "S-T" = p :: rest
       /\ coords p = (31, 121)%Q.
Proof.
  destruct (getShipmentRouteCoordinates_tracking_priority trackingFeed
              (shipmentOf "S-T" "ORD-T") trackingT eq_refl ltac:(discriminate)
              (Some detailsT)) as [_ [Hcoords [Hnone _]]].
  split; [exact Hcoords | split; [exact Hnone |]].
  eexists. eexists. split; reflexivity.
Defined.
